(** * Workout completion and personal-record engine

    A shallow embedding of [WorkoutService] (services/workout.service.ts),
    of the calculators it calls (utils/calculators.ts), of the error class
    it throws (utils/errors.ts) and of the part of the Mongoose models it
    reads and writes (models/workout.model.ts, models/record.model.ts,
    models/progress.model.ts).

    Conventions of the embedding:
    - a JavaScript [number] is an integer of [Z]; the engine only adds,
      multiplies and compares, which agrees with IEEE doubles on integers
      below 2^53;
    - an [ObjectId] (and the string a controller passes for it) is a
      [string];
    - a [Date] is its [getTime()] value in milliseconds;
    - asynchronous code is sequential: every [await] is a step of a state
      and exception monad over the database;
    - every call on a model or on the driver is logged; a request to the
      store may fail: an oracle [fault] says, for the k-th entry of the
      log, whether the driver throws there (a connection error, a timeout,
      a cast error on a malformed id);
    - Mongoose validates a document against its schema before it sends
      it: a document that the schema refuses is never sent;
    - fields that no modelled operation reads or writes (notes, location,
      rpe, the timestamps of Mongoose) are left out. *)

From Stdlib Require Import ZArith List String Bool Lia DecimalString.
From Stdlib Require Import Sorted Permutation.
Import ListNotations.

Local Open Scope string_scope.
Local Open Scope list_scope.
Local Open Scope Z_scope.

(** ** Data model *)

Definition ObjectId := string.

Module Status.
(** [status] of models/workout.model.ts. *)
Inductive t := in_progress | completed | aborted.

Definition eqb (a b : t) : bool :=
  match a, b with
  | in_progress, in_progress | completed, completed | aborted, aborted => true
  | _, _ => false
  end.
End Status.

Module RecordType.
(** [type] of models/record.model.ts. *)
Inductive t := weight | reps | volume | duration.

Definition eqb (a b : t) : bool :=
  match a, b with
  | weight, weight | reps, reps | volume, volume | duration, duration => true
  | _, _ => false
  end.
End RecordType.

(** One element of [IWorkoutSet.sets]. *)
Record SetEntry := mkSet {
  weight : Z;
  reps : Z;
  set_duration : option Z;
  completed : bool;
  isPersonalRecord : bool
}.

(** [IWorkoutSet]: one exercise of a workout with its ordered sets. *)
Record WorkoutSet := mkWorkoutSet {
  entry_id : ObjectId;
  exercise : ObjectId;
  sets : list SetEntry
}.

Record Metrics := mkMetrics {
  totalVolume : Z;
  totalReps : Z;
  caloriesBurned : Z;
  personalRecords : Z
}.

(** [IWorkout]. *)
Record Workout := mkWorkout {
  _id : ObjectId;
  user : ObjectId;
  routine : ObjectId;
  startTime : Z;
  endTime : option Z;
  duration : option Z;
  status : Status.t;
  exercises : list WorkoutSet;
  metrics : option Metrics
}.

(** [IRecord]; [r_previous] is the optional [{ value, date }] snapshot. *)
Record RecordDoc := mkRecord {
  r_user : ObjectId;
  r_exercise : ObjectId;
  r_type : RecordType.t;
  r_value : Z;
  r_date : Z;
  r_workout : ObjectId;
  r_previous : option (Z * Z)
}.

(** A document of the progress collection, as [completeWorkout] builds it. *)
Record ProgressDoc := mkProgress {
  p_user : ObjectId;
  p_type : string;
  p_metric : string;
  p_date : Z;
  p_value : Z;
  p_unit : string;
  p_workout : ObjectId;
  p_exercise : option ObjectId;
  p_source : string
}.

(** The collections the engine touches. [exerciseIds] are the [_id]s of the
    exercise collection, against which [populate] resolves references. *)
Record Store := mkStore {
  workouts : list Workout;
  exerciseIds : list ObjectId;
  records : list RecordDoc;
  progress : list ProgressDoc
}.

(** ** Errors *)

Inductive Exn :=
| AppError (message : string) (statusCode : Z)
| MongoError (reason : string)
| TypeError.

Definition isAppError (e : Exn) : bool :=
  match e with AppError _ _ => true | _ => false end.

(** The MongoTransactionError of the driver for an abort after a commit. *)
Definition AbortRefused : Exn :=
  MongoError "Cannot call abortTransaction after calling commitTransaction".

(** ** Calls on the models and the database driver *)

Inductive StoreOp :=
| OpStartSession
| OpStartTransaction
| OpFindWorkout (id userId : ObjectId)
| OpFindRecord (userId exerciseId : ObjectId) (ty : RecordType.t)
| OpCreateRecord (r : RecordDoc)
| OpCreateProgress (ps : list ProgressDoc)
| OpSaveWorkout (w : Workout)
| OpFindOneAndUpdate (id userId : ObjectId)
| OpCommit
| OpAbort
| OpEndSession.

Definition isWrite (op : StoreOp) : bool :=
  match op with
  | OpCreateRecord _ | OpCreateProgress _ | OpSaveWorkout _
  | OpFindOneAndUpdate _ _ => true
  | _ => false
  end.

(** ** models/progress.model *)

(** The [enum] of [type] in the schema. *)
Definition progressMetricTypes : list string :=
  ["weight"; "bodyFat"; "waist"; "chest"; "arms"; "thighs"].

Definition isProgressMetricType (t : string) : bool :=
  existsb (String.eqb t) progressMetricTypes.

(** The [pre('save')] hook of the schema, with the values that
    types/progress.types of the backend gives [MetricType] (its BODY_FAT
    is "body_fat", which the [enum] above does not list). *)
Definition preSaveAccepts (p : ProgressDoc) : bool :=
  let t := p_type p in
  let v := p_value p in
  negb (String.eqb t "weight" && ((v <=? 0) || (500 <? v)))
  && negb (String.eqb t "body_fat" && ((v <? 0) || (100 <? v)))
  && negb ((String.eqb t "chest" || String.eqb t "waist" || String.eqb t "hips"
            || String.eqb t "arms" || String.eqb t "thighs")
           && ((v <=? 0) || (300 <? v))).

(** A document that passes the validation of the schema and its hook. *)
Definition validProgress (p : ProgressDoc) : bool :=
  isProgressMetricType (p_type p) && preSaveAccepts p.

(** What a strict schema keeps of a document: the paths it declares,
    [user], [type], [value] and [date]. The paths it does not declare are
    dropped; they are stored as absent (the empty string, [None]). *)
Definition castProgress (p : ProgressDoc) : ProgressDoc :=
  mkProgress (p_user p) (p_type p) "" (p_date p) (p_value p) "" "" None "".


(** Whether [commitTransaction] was called on the transaction that the
    session is in. *)
Definition commitCalled (l : list StoreOp) : bool :=
  fold_left (fun called op =>
               match op with
               | OpStartTransaction => false
               | OpCommit => true
               | _ => called
               end) l false.

(** ** The world: committed data, the open transaction, the clock *)

Record World := mkWorld {
  db : Store;
  txn : option Store;
  ticks : nat;
  log : list StoreOp
}.

(** What a read inside the session sees. *)
Definition view (w : World) : Store :=
  match txn w with Some s => s | None => db w end.

Definition initial (s : Store) : World := mkWorld s None 0 [].

(** ** State and exception monad *)

Inductive Outcome (A : Type) :=
| Ret (a : A)
| Raise (e : Exn).
Arguments Ret {A} a.
Arguments Raise {A} e.

Definition M (A : Type) := World -> Outcome A * World.

Definition ret {A} (a : A) : M A := fun w => (Ret a, w).

Definition throw {A} (e : Exn) : M A := fun w => (Raise e, w).

Definition bind {A B} (m : M A) (k : A -> M B) : M B :=
  fun w =>
    match m w with
    | (Ret a, w') => k a w'
    | (Raise e, w') => (Raise e, w')
    end.

Declare Scope engine_scope.
Delimit Scope engine_scope with engine.
Notation "x <- c ;; k" := (bind c (fun x => k))
  (at level 61, c at next level, right associativity) : engine_scope.
Notation "' p <- c ;; k" := (bind c (fun x => match x with p => k end))
  (at level 61, p pattern, c at next level, right associativity) : engine_scope.
Notation "c ;; k" := (bind c (fun _ => k))
  (at level 61, right associativity) : engine_scope.
Local Open Scope engine_scope.

(** [try { body } catch (error) { handler error } finally { fin }]. *)
Definition tryCatchFinally {A} (body : M A) (handler : Exn -> M A)
    (fin : M unit) : M A :=
  fun w =>
    let '(r, w1) :=
      match body w with
      | (Ret a, w') => (Ret a, w')
      | (Raise e, w') => handler e w'
      end in
    match fin w1 with
    | (Ret _, w2) => (r, w2)
    | (Raise e, w2) => (Raise e, w2)
    end.

(** [try { body } catch (error) { handler error }]. *)
Definition tryCatch {A} (body : M A) (handler : Exn -> M A) : M A :=
  fun w =>
    match body w with
    | (Ret a, w') => (Ret a, w')
    | (Raise e, w') => handler e w'
    end.

(** ** Generic loop: [for (const x of xs) { ... }] mutating [x] and locals *)

Fixpoint forEach {A S} (f : S -> A -> M (A * S)) (xs : list A) (s : S)
    : M (list A * S) :=
  match xs with
  | [] => ret ([], s)
  | x :: rest =>
      '(x', s1) <- f s x ;;
      '(rest', s2) <- forEach f rest s1 ;;
      ret (x' :: rest', s2)
  end.

(** ** utils/calculators.ts, pure part *)

Definition calculateVolume (weight reps : Z) : Z := weight * reps.

(** ** Queries on collections *)

Definition sameKey (userId exerciseId : ObjectId) (ty : RecordType.t)
    (r : RecordDoc) : bool :=
  String.eqb (r_user r) userId && String.eqb (r_exercise r) exerciseId
  && RecordType.eqb (r_type r) ty.

(** First document of [rs] in the order [sort({ value: -1 })]. *)
Fixpoint maxByValue (rs : list RecordDoc) : option RecordDoc :=
  match rs with
  | [] => None
  | r :: rest =>
      match maxByValue rest with
      | None => Some r
      | Some m => if r_value m <=? r_value r then Some r else Some m
      end
  end.

Definition findWorkout (id userId : ObjectId) (s : Store) : option Workout :=
  find (fun w => String.eqb (_id w) id && String.eqb (user w) userId)
       (workouts s).

Fixpoint replaceWorkout (w : Workout) (ws : list Workout) : list Workout :=
  match ws with
  | [] => []
  | x :: rest =>
      if String.eqb (_id x) (_id w) then w :: rest
      else x :: replaceWorkout w rest
  end.

(** [populate('exercises.exercise')]: the referenced document, or [null]
    when the exercise collection has none with that [_id]. *)
Definition populate (existing : list ObjectId) (ref : ObjectId)
    : option ObjectId :=
  if existsb (String.eqb ref) existing then Some ref else None.

(** [x || d] on a [number | undefined]. *)
Definition orElse (x : option Z) (d : Z) : Z :=
  match x with
  | Some v => if v =? 0 then d else v
  | None => d
  end.

(** [Math.round(totalVolume * 0.05)]: the nearest integer to a twentieth,
    halves upwards. *)
Definition roundTwentieth (v : Z) : Z := (v + 10) / 20.

(** A [Partial<IWorkout>] sent to [updateWorkout]. *)
Record WorkoutPatch := mkWorkoutPatch {
  u_user : option ObjectId;
  u_routine : option ObjectId;
  u_startTime : option Z;
  u_endTime : option Z;
  u_duration : option Z;
  u_status : option Status.t;
  u_exercises : option (list WorkoutSet);
  u_metrics : option Metrics
}.

(** A [Partial<IWorkoutSet>] sent to the two exercise operations. *)
Record WorkoutSetPatch := mkWorkoutSetPatch {
  u_exercise : option ObjectId;
  u_sets : option (list SetEntry)
}.

Definition patched {A} (new : option A) (old : A) : A :=
  match new with Some v => v | None => old end.

Definition patchedOpt {A} (new old : option A) : option A :=
  match new with Some v => Some v | None => old end.

(** The [$set] a [findOneAndUpdate] applies. *)
Definition applyPatch (p : WorkoutPatch) (w : Workout) : Workout :=
  mkWorkout (_id w)
    (patched (u_user p) (user w))
    (patched (u_routine p) (routine w))
    (patched (u_startTime p) (startTime w))
    (patchedOpt (u_endTime p) (endTime w))
    (patchedOpt (u_duration p) (duration w))
    (patched (u_status p) (status w))
    (patched (u_exercises p) (exercises w))
    (patchedOpt (u_metrics p) (metrics w)).

(** [Object.assign(entry, updateData)]. *)
Definition assignEntry (e : WorkoutSet) (p : WorkoutSetPatch) : WorkoutSet :=
  mkWorkoutSet (entry_id e)
    (patched (u_exercise p) (exercise e))
    (patched (u_sets p) (sets e)).

(** [exercises.findIndex(ex => ex._id.toString() === exerciseId)] followed
    by the assignment at that index; [None] stands for index -1. *)
Fixpoint assignAt (exerciseId : ObjectId) (p : WorkoutSetPatch)
    (es : list WorkoutSet) : option (list WorkoutSet) :=
  match es with
  | [] => None
  | e :: rest =>
      if String.eqb (entry_id e) exerciseId then Some (assignEntry e p :: rest)
      else option_map (cons e) (assignAt exerciseId p rest)
  end.

Definition withExercises (es : list WorkoutSet) (w : Workout) : Workout :=
  mkWorkout (_id w) (user w) (routine w) (startTime w) (endTime w)
    (duration w) (status w) es (metrics w).

Definition markPersonalRecord (s : SetEntry) : SetEntry :=
  mkSet (weight s) (reps s) (set_duration s) (completed s) true.

(** ** The driver and the service *)

Section Service.

(** [clock k] is what the k-th [new Date()] of a call returns;
    [fault k] says whether the request logged at position k throws;
    [uniqueIndex] says whether the unique index that the Record schema
    declares is in force on the collection (Mongoose builds it when the
    model is compiled, unless the build fails);
    [newObjectId k] is the [_id] Mongoose gives a subdocument pushed when
    the log has k entries. *)
Variable clock : nat -> Z.
Variable fault : nat -> bool.
Variable uniqueIndex : bool.
Variable newObjectId : nat -> ObjectId.

Definition newDate : M Z :=
  fun w => (Ret (clock (ticks w)),
            mkWorld (db w) (txn w) (S (ticks w)) (log w)).

(** A step that the driver performs locally and that cannot fail. *)
Definition note (op : StoreOp) : M unit :=
  fun w => (Ret tt, mkWorld (db w) (txn w) (ticks w) (log w ++ [op])).

(** A request to the server; it is logged and may throw. *)
Definition request (op : StoreOp) : M unit :=
  fun w =>
    let w' := mkWorld (db w) (txn w) (ticks w) (log w ++ [op]) in
    if fault (List.length (log w)) then (Raise (MongoError "request failed"), w')
    else (Ret tt, w').

Definition readStore : M Store := fun w => (Ret (view w), w).

(** A write goes to the open transaction, or to the database when the
    call carries no session. *)
Definition writeStore (f : Store -> Store) : M unit :=
  fun w =>
    match txn w with
    | Some s => (Ret tt, mkWorld (db w) (Some (f s)) (ticks w) (log w))
    | None => (Ret tt, mkWorld (f (db w)) None (ticks w) (log w))
    end.

Definition startSession : M unit := request OpStartSession.

Definition startTransaction : M unit :=
  note OpStartTransaction ;;
  fun w => (Ret tt, mkWorld (db w) (Some (db w)) (ticks w) (log w)).

Definition commitTransaction : M unit :=
  request OpCommit ;;
  fun w => (Ret tt, mkWorld (view w) None (ticks w) (log w)).

(** [session.abortTransaction()]: the driver ignores the errors of the
    command, but it refuses to abort once [commitTransaction] was called
    on the transaction, also when that commit failed. Either way the
    session is in no transaction afterwards. *)
Definition abortTransaction : M unit :=
  fun w =>
    let w' := mkWorld (db w) None (ticks w) (log w ++ [OpAbort]) in
    if commitCalled (log w) then (Raise AbortRefused, w') else (Ret tt, w').

Definition endSession : M unit := note OpEndSession.

(** [Workout.findOne({ _id: id, user: userId })]. *)
Definition Workout_findOne (id userId : ObjectId) : M (option Workout) :=
  request (OpFindWorkout id userId) ;;
  s <- readStore ;;
  ret (findWorkout id userId s).

(** The same query with [.populate('exercises.exercise')]: the document
    and the exercise references that resolve. *)
Definition Workout_findOne_populated (id userId : ObjectId)
    : M (option Workout * list ObjectId) :=
  request (OpFindWorkout id userId) ;;
  s <- readStore ;;
  ret (findWorkout id userId s, exerciseIds s).

(** [workout.save()]: the document with that [_id] is replaced. *)
Definition Workout_save (w : Workout) : M unit :=
  request (OpSaveWorkout w) ;;
  s <- readStore ;;
  if existsb (fun x => String.eqb (_id x) (_id w)) (workouts s) then
    writeStore (fun s => mkStore (replaceWorkout w (workouts s))
                           (exerciseIds s) (records s) (progress s))
  else throw (MongoError "DocumentNotFoundError").

(** [Workout.findOneAndUpdate({ _id, user }, updateData, { new: true })]. *)
Definition Workout_findOneAndUpdate (id userId : ObjectId)
    (p : WorkoutPatch) : M (option Workout) :=
  request (OpFindOneAndUpdate id userId) ;;
  s <- readStore ;;
  match findWorkout id userId s with
  | None => ret None
  | Some w =>
      let w' := applyPatch p w in
      writeStore (fun s => mkStore (replaceWorkout w' (workouts s))
                             (exerciseIds s) (records s) (progress s)) ;;
      ret (Some w')
  end.

(** [Record.findOne({ user, exercise, type }).sort({ value: -1 })]. *)
Definition Record_findOne (userId exerciseId : ObjectId)
    (ty : RecordType.t) : M (option RecordDoc) :=
  request (OpFindRecord userId exerciseId ty) ;;
  s <- readStore ;;
  ret (maxByValue (filter (sameKey userId exerciseId ty) (records s))).

(** [Record.create([r], { session })]. The schema declares the unique
    index [{ user: 1, exercise: 1, type: 1 }]: under it, inserting a
    second document for a key is a duplicate-key error. *)
Definition Record_create (r : RecordDoc) : M unit :=
  request (OpCreateRecord r) ;;
  s <- readStore ;;
  if uniqueIndex
     && existsb (sameKey (r_user r) (r_exercise r) (r_type r)) (records s)
  then
    throw (MongoError "E11000 duplicate key error")
  else
    writeStore (fun s => mkStore (workouts s) (exerciseIds s)
                           (records s ++ [r]) (progress s)).

(** [Progress.create(ps, { session })]: Mongoose validates every
    document before it sends it; the documents that pass are inserted as
    the schema casts them, and the call rejects when one does not pass.
    When none passes, nothing is sent. *)
Definition Progress_create (ps : list ProgressDoc) : M unit :=
  match filter validProgress ps with
  | [] => note (OpCreateProgress ps)
  | accepted =>
      request (OpCreateProgress ps) ;;
      writeStore (fun s => mkStore (workouts s) (exerciseIds s) (records s)
                             (progress s ++ map castProgress accepted))
  end ;;
  if forallb validProgress ps then ret tt
  else throw (MongoError "ValidationError").

(** [isPersonalRecord] of utils/calculators.ts (the name without the
    underscore is the field of a set). *)
Definition isPersonalRecord_ (userId exerciseId : ObjectId)
    (weight reps : Z) : M bool :=
  if reps =? 1 then
    maxWeightRecord <- Record_findOne userId exerciseId RecordType.weight ;;
    ret (match maxWeightRecord with
         | None => true
         | Some r => r_value r <? weight
         end)
  else
    let volume := calculateVolume weight reps in
    maxVolumeRecord <- Record_findOne userId exerciseId RecordType.volume ;;
    ret (match maxVolumeRecord with
         | None => true
         | Some r => r_value r <? volume
         end).

(** [exercise.exercise._id] on a populated reference: reading [_id] of
    [null] is a TypeError. *)
Definition idOf (populated : option ObjectId) : M ObjectId :=
  match populated with
  | Some i => ret i
  | None => throw TypeError
  end.

(** Body of the inner loop of [completeWorkout] for one set. The locals
    are [(exerciseVolume, exerciseReps, personalRecords)]. *)
Definition processSet (userId workoutId : ObjectId)
    (populated : option ObjectId) (acc : Z * Z * Z) (set : SetEntry)
    : M (SetEntry * (Z * Z * Z)) :=
  let '(exerciseVolume, exerciseReps, nRecords) := acc in
  if completed set then
    let exerciseReps := exerciseReps + reps set in
    let setVolume := calculateVolume (weight set) (reps set) in
    let exerciseVolume := exerciseVolume + setVolume in
    exerciseId <- idOf populated ;;
    isRecord <- isPersonalRecord_ userId exerciseId (weight set) (reps set) ;;
    if (isRecord : bool) then
      let set := markPersonalRecord set in
      let nRecords := nRecords + 1 in
      date <- newDate ;;
      Record_create
        (mkRecord userId exerciseId
           (if reps set =? 1 then RecordType.weight else RecordType.volume)
           (if reps set =? 1 then weight set else weight set * reps set)
           date workoutId None) ;;
      ret (set, (exerciseVolume, exerciseReps, nRecords))
    else ret (set, (exerciseVolume, exerciseReps, nRecords))
  else ret (set, (exerciseVolume, exerciseReps, nRecords)).

(** Body of the outer loop for one exercise. The locals are
    [(totalVolume, totalReps, personalRecords)]. *)
Definition processExercise (userId workoutId : ObjectId)
    (existing : list ObjectId) (acc : Z * Z * Z) (ex : WorkoutSet)
    : M (WorkoutSet * (Z * Z * Z)) :=
  let '(sumVolume, sumReps, nRecords) := acc in
  let populated := populate existing (exercise ex) in
  '(sets', (exerciseVolume, exerciseReps, nRecords)) <-
    forEach (processSet userId workoutId populated) (sets ex)
            (0, 0, nRecords) ;;
  let sumVolume := sumVolume + exerciseVolume in
  let sumReps := sumReps + exerciseReps in
  exerciseId <- idOf populated ;;
  date <- newDate ;;
  Progress_create
    [mkProgress userId "exercise" (exerciseId ++ "_volume")%string date
       exerciseVolume "kg" workoutId (Some exerciseId) "workout"] ;;
  ret (mkWorkoutSet (entry_id ex) (exercise ex) sets',
       (sumVolume, sumReps, nRecords)).

(** The [try] block of [completeWorkout] from the assignment of
    [workout.status] to the [return]. *)
Definition finishWorkout (userId : ObjectId) (workout : Workout)
    (existing : list ObjectId) : M Workout :=
  endTime <- newDate ;;
  let duration := (endTime - startTime workout) / 1000 in
  '(exercises', (sumVolume, sumReps, nRecords)) <-
    forEach (processExercise userId (_id workout) existing)
            (exercises workout) (0, 0, 0) ;;
  let workout :=
    mkWorkout (_id workout) (user workout) (routine workout)
      (startTime workout) (Some endTime) (Some duration)
      Status.completed exercises'
      (Some (mkMetrics sumVolume sumReps (roundTwentieth sumVolume)
               nRecords)) in
  Workout_save workout ;;
  date1 <- newDate ;;
  date2 <- newDate ;;
  Progress_create
    [mkProgress userId "performance" "workout_duration" date1
       (orElse (Some duration) 0) "seconds" (_id workout) None
       "workout";
     mkProgress userId "performance" "workout_volume" date2
       sumVolume "kg" (_id workout) None "workout"] ;;
  commitTransaction ;;
  ret workout.

(** The [try] block of [completeWorkout]: the load, the two checks and
    the rest. *)
Definition completeWorkoutBody (id userId : ObjectId) : M Workout :=
  '(found, existing) <- Workout_findOne_populated id userId ;;
  match found with
  | None => throw (AppError "Workout not found" 404)
  | Some workout =>
      if Status.eqb (status workout) Status.completed then
        throw (AppError "Workout is already completed" 400)
      else finishWorkout userId workout existing
  end.

(** The [catch (error)] block of [completeWorkout]. *)
Definition completeWorkoutCatch (error : Exn) : M Workout :=
  abortTransaction ;;
  if isAppError error then throw error
  else throw (AppError "Error completing workout" 400).

Definition completeWorkout (id userId : ObjectId) : M Workout :=
  startSession ;;
  startTransaction ;;
  tryCatchFinally (completeWorkoutBody id userId) completeWorkoutCatch
    endSession.

Definition updateWorkout (id userId : ObjectId) (updateData : WorkoutPatch)
    : M Workout :=
  tryCatch
    (workout <- Workout_findOneAndUpdate id userId updateData ;;
     match workout with
     | None => throw (AppError "Workout not found" 404)
     | Some workout => ret workout
     end)
    (fun error =>
       if isAppError error then throw error
       else throw (AppError "Error updating workout" 400)).

(** [workout.exercises.push(exerciseData as any)]: Mongoose casts the
    pushed value to a subdocument with a fresh [_id]; [exercise] is
    required by the schema, so [save] rejects an entry without it. *)
Definition addExerciseToWorkout (workoutId userId : ObjectId)
    (exerciseData : WorkoutSetPatch) : M Workout :=
  tryCatch
    (workout <- Workout_findOne workoutId userId ;;
     match workout with
     | None => throw (AppError "Workout not found" 404)
     | Some workout =>
         if negb (Status.eqb (status workout) Status.in_progress) then
           throw (AppError "Cannot add exercises to a completed workout" 400)
         else
           match u_exercise exerciseData with
           | None => throw (MongoError "ValidationError")
           | Some ex =>
               fresh <- (fun w => (Ret (newObjectId (List.length (log w))), w)) ;;
               let entry :=
                 mkWorkoutSet fresh ex (patched (u_sets exerciseData) []) in
               let workout :=
                 withExercises (exercises workout ++ [entry]) workout in
               Workout_save workout ;;
               ret workout
           end
     end)
    (fun error =>
       if isAppError error then throw error
       else throw (AppError "Error adding exercise to workout" 400)).

Definition updateExerciseInWorkout (workoutId userId exerciseId : ObjectId)
    (updateData : WorkoutSetPatch) : M Workout :=
  tryCatch
    (workout <- Workout_findOne workoutId userId ;;
     match workout with
     | None => throw (AppError "Workout not found" 404)
     | Some workout =>
         match assignAt exerciseId updateData (exercises workout) with
         | None => throw (AppError "Exercise not found in workout" 404)
         | Some exercises' =>
             let workout := withExercises exercises' workout in
             Workout_save workout ;;
             ret workout
         end
     end)
    (fun error =>
       if isAppError error then throw error
       else throw (AppError "Error updating exercise in workout" 400)).

End Service.

(** ** The rest of the service and what it calls *)

(** [`${statusCode}`] of utils/errors.ts, for an integer code. *)
Definition decimal (n : Z) : string := NilZero.string_of_int (Z.to_int n).

(** The [status] that the constructor of [AppError] derives:
    [`${statusCode}`.startsWith('4') ? 'fail' : 'error']. *)
Definition appErrorStatus (statusCode : Z) : string :=
  if String.prefix "4" (decimal statusCode) then "fail" else "error".

(** The string an enum value of [status] is stored as. *)
Definition statusName (st : Status.t) : string :=
  match st with
  | Status.in_progress => "in_progress"
  | Status.completed => "completed"
  | Status.aborted => "aborted"
  end.

(** The options of [getUserWorkouts]. A limit and an offset are counts;
    the dates are valid dates. *)
Record ListOptions := mkListOptions {
  o_limit : option nat;
  o_offset : option nat;
  o_status : option string;
  o_fromDate : option Z;
  o_toDate : option Z;
  o_routineId : option string
}.

(** [if (x)] on a [string | undefined]: the empty string is falsy. *)
Definition truthy (x : option string) : option string :=
  match x with
  | Some EmptyString => None
  | other => other
  end.

(** The [query] object that [getUserWorkouts] builds, as a predicate. *)
Definition matchesQuery (userId : ObjectId) (options : ListOptions)
    (w : Workout) : bool :=
  String.eqb (user w) userId
  && match truthy (o_status options) with
     | Some st => String.eqb (statusName (status w)) st
     | None => true
     end
  && match truthy (o_routineId options) with
     | Some r => String.eqb (routine w) r
     | None => true
     end
  && match o_fromDate options with
     | Some d => d <=? startTime w
     | None => true
     end
  && match o_toDate options with
     | Some d => startTime w <=? d
     | None => true
     end.

(** [sort({ startTime: -1 })]. The server promises no order among
    documents of equal [startTime]: [ties w x] says whether, in this
    query, it puts [w] before [x] when their start times are equal. *)
Fixpoint insertByStart (ties : Workout -> Workout -> bool) (w : Workout)
    (ws : list Workout) : list Workout :=
  match ws with
  | [] => [w]
  | x :: rest =>
      if (startTime x <? startTime w)
         || ((startTime x =? startTime w) && ties w x)
      then w :: x :: rest
      else x :: insertByStart ties w rest
  end.

Definition sortByStartDesc (ties : Workout -> Workout -> bool)
    (ws : list Workout) : list Workout :=
  fold_right (insertByStart ties) [] ws.

(** [limit(n)]: a limit of 0 is no limit. *)
Definition limitTo {A} (n : nat) (l : list A) : list A :=
  match n with
  | O => l
  | _ => firstn n l
  end.

(** [Workout.find(query).sort({ startTime: -1 }).skip(offset).limit(limit)]
    (the routine that [populate] puts in place of its reference is not
    represented). *)
Definition findUserWorkouts (ties : Workout -> Workout -> bool)
    (userId : ObjectId) (options : ListOptions) (s : Store) : list Workout :=
  limitTo (match o_limit options with Some n => n | None => 10%nat end)
    (skipn (match o_offset options with Some n => n | None => O end)
       (sortByStartDesc ties
          (filter (matchesQuery userId options) (workouts s)))).

(** [Workout.countDocuments(query)]. *)
Definition countUserWorkouts (userId : ObjectId) (options : ListOptions)
    (s : Store) : nat :=
  List.length (filter (matchesQuery userId options) (workouts s)).

(** [getUserWorkouts]: the two queries run under [Promise.all]; when
    either rejects, the [catch] turns it into the AppError. The
    operation reads only. *)
Definition getUserWorkouts (ties : Workout -> Workout -> bool)
    (findFails countFails : bool) (userId : ObjectId)
    (options : ListOptions) (s : Store) : Outcome (list Workout * nat) :=
  if findFails || countFails then Raise (AppError "Error fetching workouts" 400)
  else Ret (findUserWorkouts ties userId options s,
            countUserWorkouts userId options s).

(** What [findOneAndDelete({ _id: id, user: userId })] leaves. *)
Fixpoint removeWorkout (id userId : ObjectId) (ws : list Workout)
    : list Workout :=
  match ws with
  | [] => []
  | x :: rest =>
      if String.eqb (_id x) id && String.eqb (user x) userId then rest
      else x :: removeWorkout id userId rest
  end.

(** [new Workout(workoutData)] with the defaults of the schema, when the
    required paths [user], [routine] and [startTime] are there. *)
Definition newWorkout (fresh : ObjectId) (workoutData : WorkoutPatch)
    : option Workout :=
  match u_user workoutData, u_routine workoutData, u_startTime workoutData with
  | Some u, Some r, Some t =>
      Some (mkWorkout fresh u r t (u_endTime workoutData)
              (u_duration workoutData)
              (patched (u_status workoutData) Status.in_progress)
              (patched (u_exercises workoutData) [])
              (u_metrics workoutData))
  | _, _, _ => None
  end.

Section OtherOperations.

Variable fault : nat -> bool.
Variable newObjectId : nat -> ObjectId.

(** [Workout.findOneAndDelete({ _id: id, user: userId })]; like
    [findOneAndUpdate] it is a findAndModify command of the driver and is
    logged as one. *)
Definition Workout_findOneAndDelete (id userId : ObjectId)
    : M (option Workout) :=
  request fault (OpFindOneAndUpdate id userId) ;;
  s <- readStore ;;
  match findWorkout id userId s with
  | None => ret None
  | Some w =>
      writeStore (fun s => mkStore (removeWorkout id userId (workouts s))
                             (exerciseIds s) (records s) (progress s)) ;;
      ret (Some w)
  end.

(** [workout.save()] on a document that is new: an insertion, which the
    index on [_id] refuses for an [_id] already there. *)
Definition Workout_insert (w : Workout) : M unit :=
  request fault (OpSaveWorkout w) ;;
  s <- readStore ;;
  if existsb (fun x => String.eqb (_id x) (_id w)) (workouts s) then
    throw (MongoError "E11000 duplicate key error")
  else
    writeStore (fun s => mkStore (workouts s ++ [w]) (exerciseIds s)
                           (records s) (progress s)).

(** [createWorkout]: its [catch] wraps every error. *)
Definition createWorkout (workoutData : WorkoutPatch) : M Workout :=
  tryCatch
    (fresh <- (fun w => (Ret (newObjectId (List.length (log w))), w)) ;;
     match newWorkout fresh workoutData with
     | None => throw (MongoError "ValidationError")
     | Some workout =>
         Workout_insert workout ;;
         ret workout
     end)
    (fun _ => throw (AppError "Error creating workout" 400)).

(** [getWorkoutById]: the document and the exercise references that
    [populate] resolves (the populated routine is not represented). *)
Definition getWorkoutById (id userId : ObjectId)
    : M (Workout * list ObjectId) :=
  tryCatch
    ('(found, existing) <- Workout_findOne_populated fault id userId ;;
     match found with
     | None => throw (AppError "Workout not found" 404)
     | Some workout => ret (workout, existing)
     end)
    (fun error =>
       if isAppError error then throw error
       else throw (AppError "Error fetching workout" 400)).

Definition deleteWorkout (id userId : ObjectId) : M unit :=
  tryCatch
    (result <- Workout_findOneAndDelete id userId ;;
     match result with
     | None => throw (AppError "Workout not found" 404)
     | Some _ => ret tt
     end)
    (fun error =>
       if isAppError error then throw error
       else throw (AppError "Error deleting workout" 400)).

End OtherOperations.

(** ** Vocabulary of the statements *)

(** Sum of weight × reps over the completed sets of one exercise. *)
Definition completedVolume (ss : list SetEntry) : Z :=
  fold_right (fun s acc => if completed s then weight s * reps s + acc else acc)
             0 ss.

Definition completedReps (ss : list SetEntry) : Z :=
  fold_right (fun s acc => if completed s then reps s + acc else acc) 0 ss.

Definition sessionVolume (es : list WorkoutSet) : Z :=
  fold_right (fun e acc => completedVolume (sets e) + acc) 0 es.

Definition sessionReps (es : list WorkoutSet) : Z :=
  fold_right (fun e acc => completedReps (sets e) + acc) 0 es.

(** The spec's names for the errors [completeWorkout] throws. *)
Definition NotFound : Exn := AppError "Workout not found" 404.
Definition AlreadyCompleted : Exn := AppError "Workout is already completed" 400.
Definition InternalError : Exn := AppError "Error completing workout" 400.

(** Entries a call appended to the request log. *)
Definition appended (w w' : World) (l : list StoreOp) : Prop :=
  log w' = log w ++ l.

(** Inside an open transaction: the committed data is [s0] and the
    records seen by the session satisfy [J]. *)
Definition inTxn (J : list RecordDoc -> Prop) (s0 : Store) (w : World) : Prop :=
  db w = s0 /\ exists s, txn w = Some s /\ J (records s).

(** [m] keeps the transaction open, the committed data as it is and [J]
    true of the records in the transaction. *)
Definition preserves {A} (J : list RecordDoc -> Prop) (m : M A) : Prop :=
  forall s0 w, inTxn J s0 w -> inTxn J s0 (snd (m w)).

(** [m] throws no [AppError]. *)
Definition quiet {A} (m : M A) : Prop :=
  forall w e w', m w = (Raise e, w') -> isAppError e = false.

(** [J] still holds once [r] is inserted. *)
Definition allows (J : list RecordDoc -> Prop) (r : RecordDoc) : Prop :=
  forall l, J l -> J (l ++ [r]).

(** The record [processSet] inserts for a set that the detector accepts. *)
Definition recordOf (userId workoutId exerciseId : ObjectId)
    (set : SetEntry) (date : Z) : RecordDoc :=
  mkRecord userId exerciseId
    (if reps set =? 1 then RecordType.weight else RecordType.volume)
    (if reps set =? 1 then weight set else weight set * reps set)
    date workoutId None.

(** No constraint on the records of the transaction. *)
Definition anyRecords : list RecordDoc -> Prop := fun _ => True.

(** [m] leaves the committed data alone whenever it throws. *)
Definition atomic {A} (m : M A) : Prop :=
  forall s0 w e w',
    inTxn anyRecords s0 w -> m w = (Raise e, w') -> db w' = s0.

(** [m] only appends to the request log. *)
Definition grows {A} (m : M A) : Prop :=
  forall w r w', m w = (r, w') -> exists l, appended w w' l.

(** ** Sample data *)

(** A store that answers every request. *)
Definition noFault : nat -> bool := fun _ => false.

(** A store that fails at the k-th entry of the request log. *)
Definition faultAt (k : nat) : nat -> bool := fun n => Nat.eqb n k.

(** A clock that starts one hour after the sessions below. *)
Definition sampleClock : nat -> Z := fun k => 3600000 + Z.of_nat k.

Definition sampleIds : nat -> ObjectId := fun _ => "e9".

(** A completed set of [w] kg for [r] reps, not yet flagged. *)
Definition lift (w r : Z) : SetEntry := mkSet w r None true false.

(** Session w1 of user u1 with one exercise, the bench press. *)
Definition session (st : Status.t) (ss : list SetEntry) : Workout :=
  mkWorkout "w1" "u1" "r1" 0 None None st [mkWorkoutSet "e1" "bench" ss] None.

Definition storeOf (wk : Workout) (rs : list RecordDoc) : Store :=
  mkStore [wk] ["bench"] rs [].

(** The stored weight record of u1 on the bench press: 100 kg. *)
Definition bench100 : RecordDoc :=
  mkRecord "u1" "bench" RecordType.weight 100 0 "w0" None.

(** A stored volume record of u1 on the bench press: 100. *)
Definition benchVolume100 : RecordDoc :=
  mkRecord "u1" "bench" RecordType.volume 100 0 "w0" None.

(** The worked example: 80×10, 85×8, 90×6. *)
Definition workedSession : Workout :=
  session Status.in_progress [lift 80 10; lift 85 8; lift 90 6].

(** Session w1 of u1 with one single of 100 kg, in a store without
    records. *)
Definition sampleWorld : World :=
  initial (storeOf (session Status.in_progress [lift 100 1]) []).

(** Session w1 with an entry for the squat, which the exercise collection
    does not have. *)
Definition danglingSession : Workout :=
  mkWorkout "w1" "u1" "r1" 0 None None Status.in_progress
    [mkWorkoutSet "e1" "squat" [lift 100 1]] None.

Definition benchData : WorkoutSetPatch :=
  mkWorkoutSetPatch (Some "bench") (Some [lift 60 5]).

Definition squatData : WorkoutSetPatch := mkWorkoutSetPatch (Some "squat") None.

(** An update that aborts the workout and hands it to u2. *)
Definition handOver : WorkoutPatch :=
  mkWorkoutPatch (Some "u2") None None None None (Some Status.aborted) None None.

(** The data of a new workout of u2. *)
Definition newWorkoutData : WorkoutPatch :=
  mkWorkoutPatch (Some "u2") (Some "r1") (Some 5) None None None None None.

Definition workoutAt (id userId : ObjectId) (start : Z) : Workout :=
  mkWorkout id userId "r1" start None None Status.in_progress [] None.

(** Three workouts of u1 and one of u2. *)
Definition fourWorkouts : Store :=
  mkStore [workoutAt "a" "u1" 10; workoutAt "b" "u2" 40;
           workoutAt "c" "u1" 30; workoutAt "d" "u1" 20] [] [] [].

Definition noOptions : ListOptions :=
  mkListOptions None None None None None None.

(** A server that puts the later document of the collection first among
    equal start times, and one that changes its mind from query to query. *)
Definition laterFirst : Workout -> Workout -> bool := fun _ _ => true.

Definition fickle (i : nat) : Workout -> Workout -> bool :=
  fun _ _ => Nat.even i.

(** ** Vocabulary of the further statements *)

(** [m] keeps [I] true of the committed data and the open transaction. *)
Definition stays {A} (I : Store -> option Store -> Prop) (m : M A) : Prop :=
  forall w, I (db w) (txn w) -> I (db (snd (m w))) (txn (snd (m w))).

(** Writing with [f] keeps [I], inside a transaction and outside. *)
Definition stable (I : Store -> option Store -> Prop) (f : Store -> Store)
    : Prop :=
  (forall d s, I d (Some s) -> I d (Some (f s)))
  /\ (forall d, I d None -> I (f d) None).

(** Outside any transaction, with [K] true of the committed data. *)
Definition outTx (K : Store -> Prop) : Store -> option Store -> Prop :=
  fun d t => t = None /\ K d.

(** Every entry that [m] appends to the request log satisfies [P]. *)
Definition emits {A} (P : StoreOp -> Prop) (m : M A) : Prop :=
  forall w r w', m w = (r, w') -> exists l, appended w w' l /\ Forall P l.

(** Every error that [m] throws satisfies [P]. *)
Definition raisesOnly {A} (P : Exn -> Prop) (m : M A) : Prop :=
  forall w e w', m w = (Raise e, w') -> P e.

(** An [AppError] with the code 400 or 404. *)
Definition clientError (e : Exn) : Prop :=
  exists message code, e = AppError message code /\ (code = 400 \/ code = 404).

(** A driver error, or an [AppError] with the code 400 or 404. *)
Definition expectedInTry (e : Exn) : Prop :=
  isAppError e = false \/ clientError e.

(** No two workouts of the collection share an [_id]. *)
Definition uniqueIds (s : Store) : Prop := NoDup (map _id (workouts s)).

(** [ws'] has the documents of [ws], in place, except perhaps for the
    content of the one whose [_id] is [id]. *)
Definition sameElsewhere (id : ObjectId) (ws ws' : list Workout) : Prop :=
  Forall2 (fun a b => _id a = _id b /\ (_id a <> id -> a = b)) ws ws'.

(** A record as the completion of workout [id] of [userId] writes it. *)
Definition ownRecord (userId id : ObjectId) (r : RecordDoc) : Prop :=
  r_user r = userId /\ r_workout r = id /\ r_previous r = None.

Definition ownProgress (userId id : ObjectId) (p : ProgressDoc) : Prop :=
  p_user p = userId /\ p_workout p = id /\ p_source p = "workout".

(** [s] is [s0] but for the workout [id], records and progress entries
    added at the end for it, and nothing else. *)
Definition touched (userId id : ObjectId) (s0 s : Store) : Prop :=
  exerciseIds s = exerciseIds s0
  /\ sameElsewhere id (workouts s0) (workouts s)
  /\ (exists rs, records s = records s0 ++ rs
                 /\ Forall (ownRecord userId id) rs)
  /\ (exists ps, progress s = progress s0 ++ ps
                 /\ Forall (ownProgress userId id) ps).

(** A [Progress.create] whose documents all carry the type "exercise" or
    "performance". *)
Definition workoutProgress (op : StoreOp) : Prop :=
  match op with
  | OpCreateProgress ps =>
      Forall (fun p => p_type p = "exercise" \/ p_type p = "performance") ps
  | _ => True
  end.

(** An integer that a JavaScript number holds exactly. *)
Definition safeInteger (z : Z) : Prop := - 2 ^ 53 < z < 2 ^ 53.

(** The documents of the [Record.create] calls of a log, in order. *)
Definition createdRecords (l : list StoreOp) : list RecordDoc :=
  flat_map (fun op => match op with OpCreateRecord r => [r] | _ => [] end) l.

(** The workouts of the [save] calls of a log, in order. *)
Definition savedWorkouts (l : list StoreOp) : list Workout :=
  flat_map (fun op => match op with OpSaveWorkout wk => [wk] | _ => [] end) l.

(** [r] is a record of [rs] for the key (user, exercise, type). *)
Definition storedFor (rs : list RecordDoc) (userId exerciseId : ObjectId)
    (ty : RecordType.t) (r : RecordDoc) : Prop :=
  In r rs /\ r_user r = userId /\ r_exercise r = exerciseId /\ r_type r = ty.

(** What [completeWorkout] calls before it commits. *)
Definition sentByCompletion (op : StoreOp) : Prop :=
  workoutProgress op /\ op <> OpCommit.

(** [m] never returns a value. *)
Definition returnsNever {A} (m : M A) : Prop :=
  forall w a w', m w <> (Ret a, w').

(** The options with another page: [limit] documents from [offset] on. *)
Definition pageOptions (options : ListOptions) (limit offset : nat)
    : ListOptions :=
  mkListOptions (Some limit) (Some offset) (o_status options)
    (o_fromDate options) (o_toDate options) (o_routineId options).

(** The documents [getUserWorkouts] returns for a page when both queries
    answer. *)
Definition pageOf (ties : Workout -> Workout -> bool) (userId : ObjectId)
    (options : ListOptions) (s : Store) (limit offset : nat) : list Workout :=
  match getUserWorkouts ties false false userId
          (pageOptions options limit offset) s
  with
  | Ret (page, _) => page
  | Raise _ => []
  end.

(** Latest first. *)
Definition latestFirst (a b : Workout) : Prop := startTime b <= startTime a.

(** * Proofs *)

(** ** The monad *)

Lemma bind_Ret {A B} (m : M A) (k : A -> M B) w b w' :
  bind m k w = (Ret b, w') ->
  exists a w1, m w = (Ret a, w1) /\ k a w1 = (Ret b, w').
Proof.
  unfold bind. destruct (m w) as [[a|e] w1]; intros H.
  - exists a, w1. split; [reflexivity | exact H].
  - discriminate H.
Qed.

Lemma bind_Raise {A B} (m : M A) (k : A -> M B) w e w' :
  bind m k w = (Raise e, w') ->
  m w = (Raise e, w') \/
  exists a w1, m w = (Ret a, w1) /\ k a w1 = (Raise e, w').
Proof.
  unfold bind. destruct (m w) as [[a|e0] w1]; intros H.
  - right. exists a, w1. split; [reflexivity | exact H].
  - left. inversion H; subst. reflexivity.
Qed.

Lemma preserves_ret {A} J (a : A) : preserves J (ret a).
Proof. intros s0 w H. exact H. Qed.

Lemma preserves_throw {A} J e : preserves J (@throw A e).
Proof. intros s0 w H. exact H. Qed.

Lemma preserves_bind {A B} J (m : M A) (k : A -> M B) :
  preserves J m -> (forall a, preserves J (k a)) -> preserves J (bind m k).
Proof.
  intros Hm Hk s0 w H. specialize (Hm s0 w H). unfold bind.
  destruct (m w) as [[a|e] w1]; cbn in *.
  - apply Hk, Hm.
  - exact Hm.
Qed.

Lemma preserves_bind_ret {A B} J (a : A) (k : A -> M B) :
  preserves J (k a) -> preserves J (bind (ret a) k).
Proof. intros H s0 w Hw. exact (H s0 w Hw). Qed.

Lemma preserves_bind_throw {A B} J e (k : A -> M B) :
  preserves J (bind (throw e) k).
Proof. intros s0 w Hw. exact Hw. Qed.

Lemma preserves_forEach {A S} J (f : S -> A -> M (A * S)) xs :
  (forall s x, In x xs -> preserves J (f s x)) ->
  forall s, preserves J (forEach f xs s).
Proof.
  induction xs as [|x rest IH]; intros Hf s; cbn [forEach].
  - apply preserves_ret.
  - apply preserves_bind; [apply Hf; left; reflexivity|].
    intros [x' s1]. apply preserves_bind.
    + apply IH. intros s' y Hy. apply Hf. right. exact Hy.
    + intros [rest' s2]. apply preserves_ret.
Qed.

Lemma quiet_ret {A} (a : A) : quiet (ret a).
Proof. intros w e w' H. discriminate H. Qed.

Lemma quiet_throw {A} e : isAppError e = false -> quiet (@throw A e).
Proof. intros He w e' w' H. inversion H; subst. exact He. Qed.

Lemma quiet_bind {A B} (m : M A) (k : A -> M B) :
  quiet m -> (forall a, quiet (k a)) -> quiet (bind m k).
Proof.
  intros Hm Hk w e w' H. apply bind_Raise in H as [H | (a & w1 & _ & H)].
  - exact (Hm _ _ _ H).
  - exact (Hk a _ _ _ H).
Qed.

Lemma quiet_forEach {A S} (f : S -> A -> M (A * S)) :
  (forall s x, quiet (f s x)) -> forall xs s, quiet (forEach f xs s).
Proof.
  intros Hf xs. induction xs as [|x rest IH]; intros s; cbn [forEach].
  - apply quiet_ret.
  - apply quiet_bind; [apply Hf|]. intros [x' s1].
    apply quiet_bind; [apply IH|]. intros [rest' s2]. apply quiet_ret.
Qed.

Lemma grows_ret {A} (a : A) : grows (ret a).
Proof. intros w r w' H. inversion H; subst. exists []. symmetry. apply app_nil_r. Qed.

Lemma grows_throw {A} e : grows (@throw A e).
Proof. intros w r w' H. inversion H; subst. exists []. symmetry. apply app_nil_r. Qed.

Lemma grows_bind {A B} (m : M A) (k : A -> M B) :
  grows m -> (forall a, grows (k a)) -> grows (bind m k).
Proof.
  intros Hm Hk w r w' H. unfold bind in H.
  destruct (m w) as [[a|e] w1] eqn:Hmw.
  - destruct (Hm _ _ _ Hmw) as [l1 H1]. destruct (Hk a _ _ _ H) as [l2 H2].
    exists (l1 ++ l2). unfold appended in *. rewrite H2, H1.
    symmetry. apply app_assoc.
  - inversion H; subst. exact (Hm _ _ _ Hmw).
Qed.

Lemma grows_forEach {A S} (f : S -> A -> M (A * S)) :
  (forall s x, grows (f s x)) -> forall xs s, grows (forEach f xs s).
Proof.
  intros Hf xs. induction xs as [|x rest IH]; intros s; cbn [forEach].
  - apply grows_ret.
  - apply grows_bind; [apply Hf|]. intros [x' s1].
    apply grows_bind; [apply IH|]. intros [rest' s2]. apply grows_ret.
Qed.

(** ** Going through a computation *)

Ltac walk bind_lemma leaves :=
  repeat first
    [ progress leaves
    | apply bind_lemma; [ | intros ? ]
    | match goal with
      | |- _ (match ?x with (_, _) => _ end) => destruct x
      | |- _ (if ?b then _ else _) => destruct b
      | |- _ (match ?x with Some _ => _ | None => _ end) => destruct x
      end ].

Lemma emits_ret {A} P (a : A) : emits P (ret a).
Proof.
  intros w r w' H. inversion H; subst. exists []. split; [|constructor].
  symmetry. apply app_nil_r.
Qed.

Lemma emits_throw {A} P e : emits P (@throw A e).
Proof.
  intros w r w' H. inversion H; subst. exists []. split; [|constructor].
  symmetry. apply app_nil_r.
Qed.

Lemma emits_bind {A B} P (m : M A) (k : A -> M B) :
  emits P m -> (forall a, emits P (k a)) -> emits P (bind m k).
Proof.
  intros Hm Hk w r w' H. unfold bind in H.
  destruct (m w) as [[a|e] w1] eqn:Hmw.
  - destruct (Hm _ _ _ Hmw) as (l1 & H1 & P1).
    destruct (Hk a _ _ _ H) as (l2 & H2 & P2).
    exists (l1 ++ l2). split; [|apply Forall_app; split; assumption].
    unfold appended in *. rewrite H2, H1. symmetry. apply app_assoc.
  - inversion H; subst. exact (Hm _ _ _ Hmw).
Qed.

Lemma emits_forEach {A S} P (f : S -> A -> M (A * S)) :
  (forall s x, emits P (f s x)) -> forall xs s, emits P (forEach f xs s).
Proof.
  intros Hf xs. induction xs as [|x rest IH]; intros s; cbn [forEach].
  - apply emits_ret.
  - apply emits_bind; [apply Hf|]. intros [x' s1].
    apply emits_bind; [apply IH|]. intros [rest' s2]. apply emits_ret.
Qed.

Lemma emits_silent {A} P (m : M A) :
  (forall w, log (snd (m w)) = log w) -> emits P m.
Proof.
  intros Hm w r w' H. specialize (Hm w). rewrite H in Hm. cbn in Hm.
  exists []. split; [|constructor]. unfold appended. rewrite Hm.
  symmetry. apply app_nil_r.
Qed.

Lemma emits_request P fault op : P op -> emits P (request fault op).
Proof.
  intros Hop w r w' H. unfold request in H.
  exists [op]. split; [|repeat constructor; exact Hop].
  destruct (fault _); inversion H; subst; reflexivity.
Qed.

Lemma emits_note P op : P op -> emits P (note op).
Proof.
  intros Hop w r w' H. inversion H; subst. exists [op].
  split; [reflexivity | repeat constructor; exact Hop].
Qed.

Lemma emits_bind_cut {A B} P (m : M A) (k : A -> M B) :
  emits P m -> returnsNever m -> emits P (bind m k).
Proof.
  intros Hm Hn w r w' H. unfold bind in H.
  destruct (m w) as [[a|e] w1] eqn:Hmw; [elim (Hn _ _ _ Hmw)|].
  inversion H; subst. exact (Hm _ _ _ Hmw).
Qed.

Lemma returnsNever_throw {A} e : returnsNever (@throw A e).
Proof. intros w a w' H. discriminate H. Qed.

Lemma returnsNever_bind_l {A B} (m : M A) (k : A -> M B) :
  returnsNever m -> returnsNever (bind m k).
Proof.
  intros Hm w b w' H. apply bind_Ret in H as (a & w1 & Ha & _).
  exact (Hm _ _ _ Ha).
Qed.

Lemma returnsNever_bind_r {A B} (m : M A) (k : A -> M B) :
  (forall a, returnsNever (k a)) -> returnsNever (bind m k).
Proof.
  intros Hk w b w' H. apply bind_Ret in H as (a & w1 & _ & Hb).
  exact (Hk _ _ _ _ Hb).
Qed.

(** ** The transaction of a session *)

Lemma commitCalled_from_start l l' :
  Forall (fun op => op <> OpCommit) l' ->
  commitCalled (l ++ OpStartTransaction :: l') = false.
Proof.
  intros Hl'. unfold commitCalled. rewrite fold_left_app. cbn [fold_left].
  induction Hl' as [|op rest Hop _ IH]; [reflexivity|].
  cbn [fold_left]. destruct op; solve [exact IH | elim Hop; reflexivity].
Qed.

(** ** Queries *)

Lemma maxByValue_In l m :
  maxByValue l = Some m ->
  In m l /\ forall r, In r l -> r_value r <= r_value m.
Proof.
  revert m. induction l as [|x rest IH]; intros m H; cbn in H; [discriminate|].
  destruct (maxByValue rest) as [m'|] eqn:Hrest.
  - destruct (IH m' eq_refl) as [Hin Hmax].
    destruct (r_value m' <=? r_value x) eqn:Hle; inversion H; subst.
    + apply Z.leb_le in Hle. split; [left; reflexivity|].
      intros r [<- | Hr]; [lia|]. specialize (Hmax r Hr). lia.
    + apply Z.leb_gt in Hle. split; [right; exact Hin|].
      intros r [<- | Hr]; [lia|]. exact (Hmax r Hr).
  - inversion H; subst. split; [left; reflexivity|].
    intros r [<- | Hr]; [lia|]. destruct rest; [destruct Hr|].
    cbn in Hrest. destruct (maxByValue rest); [destruct (_ <=? _)|]; discriminate.
Qed.

Lemma maxByValue_None l : maxByValue l = None -> l = [].
Proof.
  destruct l as [|x rest]; [reflexivity|]. cbn.
  destruct (maxByValue rest); [destruct (_ <=? _)|]; discriminate.
Qed.

(** The detector's comparison against the first document by descending
    value says that the candidate exceeds every document of the key. *)
Lemma exceeds_baseline u e ty rs c :
  match maxByValue (filter (sameKey u e ty) rs) with
  | None => true
  | Some r => r_value r <? c
  end = true <->
  (forall r, In r rs -> sameKey u e ty r = true -> r_value r < c).
Proof.
  destruct (maxByValue _) as [m|] eqn:Hmax.
  - apply maxByValue_In in Hmax as [Hin Hle]. apply filter_In in Hin as [Hin Hk].
    rewrite Z.ltb_lt. split.
    + intros Hlt r Hr Hkr. specialize (Hle r). rewrite filter_In in Hle.
      specialize (Hle (conj Hr Hkr)). lia.
    + intros H. exact (H m Hin Hk).
  - apply maxByValue_None in Hmax. split; [|reflexivity]. intros _ r Hr Hk.
    assert (Hin : In r (filter (sameKey u e ty) rs)) by (apply filter_In; tauto).
    rewrite Hmax in Hin. destruct Hin.
Qed.

(** ** The driver *)

Section DriverFacts.

Variable clock : nat -> Z.
Variable fault : nat -> bool.
Variable uniqueIndex : bool.

Lemma preserves_request J op : preserves J (request fault op).
Proof.
  intros s0 w H. unfold request. destruct (fault _); exact H.
Qed.

Lemma preserves_note J op : preserves J (note op).
Proof. intros s0 w H. exact H. Qed.

Lemma preserves_newDate J : preserves J (newDate clock).
Proof. intros s0 w H. exact H. Qed.

Lemma preserves_readStore J : preserves J readStore.
Proof. intros s0 w H. exact H. Qed.

Lemma preserves_writeStore J f :
  (forall s, J (records s) -> J (records (f s))) ->
  preserves J (writeStore f).
Proof.
  intros Hf s0 w [Hdb (s & Hs & HJ)]. unfold writeStore. rewrite Hs. cbn.
  split; [exact Hdb|]. exists (f s). split; [reflexivity | apply Hf, HJ].
Qed.

Lemma preserves_idOf J p : preserves J (idOf p).
Proof. destruct p; [apply preserves_ret | apply preserves_throw]. Qed.

Lemma preserves_Record_findOne J u e ty :
  preserves J (Record_findOne fault u e ty).
Proof.
  unfold Record_findOne.
  apply preserves_bind; [apply preserves_request | intros _].
  apply preserves_bind; [apply preserves_readStore | intros s].
  apply preserves_ret.
Qed.

Lemma preserves_Record_create J r :
  allows J r -> preserves J (Record_create fault uniqueIndex r).
Proof.
  intros Hr. unfold Record_create.
  apply preserves_bind; [apply preserves_request | intros _].
  apply preserves_bind; [apply preserves_readStore | intros s].
  destruct (uniqueIndex && existsb _ _); [apply preserves_throw|].
  apply preserves_writeStore. intros s1 H. cbn. apply Hr, H.
Qed.

Lemma preserves_Progress_create J ps :
  preserves J (Progress_create fault ps).
Proof.
  unfold Progress_create. apply preserves_bind.
  - destruct (filter validProgress ps); [apply preserves_note|].
    apply preserves_bind; [apply preserves_request | intros _].
    apply preserves_writeStore. intros s H. exact H.
  - intros _. destruct (forallb _ _); [apply preserves_ret | apply preserves_throw].
Qed.

Lemma preserves_Workout_save J wk : preserves J (Workout_save fault wk).
Proof.
  unfold Workout_save.
  apply preserves_bind; [apply preserves_request | intros _].
  apply preserves_bind; [apply preserves_readStore | intros s].
  destruct (existsb _ _); [|apply preserves_throw].
  apply preserves_writeStore. intros s1 H. exact H.
Qed.

Lemma preserves_isPersonalRecord J u e wt rp :
  preserves J (isPersonalRecord_ fault u e wt rp).
Proof.
  unfold isPersonalRecord_. destruct (rp =? 1);
    (apply preserves_bind; [apply preserves_Record_findOne | intros r];
     apply preserves_ret).
Qed.

Lemma preserves_processSet J userId workoutId populated acc set :
  (forall exerciseId date,
      completed set = true -> populated = Some exerciseId ->
      allows J (recordOf userId workoutId exerciseId set date)) ->
  preserves J (processSet clock fault uniqueIndex userId workoutId populated acc set).
Proof.
  intros HJ. unfold processSet. destruct acc as [[ev er] n].
  destruct (completed set) eqn:Hc; [|apply preserves_ret].
  destruct populated as [p|]; cbn [idOf].
  2:{ apply preserves_bind_throw. }
  apply preserves_bind_ret.
  apply preserves_bind; [apply preserves_isPersonalRecord | intros b].
  destruct b; [|apply preserves_ret].
  apply preserves_bind; [apply preserves_newDate | intros date].
  apply preserves_bind; [|intros _; apply preserves_ret].
  apply preserves_Record_create. apply (HJ p date); reflexivity.
Qed.

Lemma preserves_processExercise J userId workoutId existing acc ex :
  (forall set exerciseId date,
      In set (sets ex) -> completed set = true ->
      populate existing (exercise ex) = Some exerciseId ->
      allows J (recordOf userId workoutId exerciseId set date)) ->
  preserves J (processExercise clock fault uniqueIndex userId workoutId existing acc ex).
Proof.
  intros HJ. unfold processExercise. destruct acc as [[sv sr] n].
  apply preserves_bind.
  - apply preserves_forEach. intros a set Hin. apply preserves_processSet.
    intros exerciseId date Hc Hp. exact (HJ set exerciseId date Hin Hc Hp).
  - intros [sets' [[ev er] n']].
    apply preserves_bind; [apply preserves_idOf | intros exerciseId].
    apply preserves_bind; [apply preserves_newDate | intros date].
    apply preserves_bind; [apply preserves_Progress_create | intros _].
    apply preserves_ret.
Qed.

Lemma allows_anyRecords r : allows anyRecords r.
Proof. intros l _. exact I. Qed.

Lemma preserves_Workout_findOne_populated J id userId :
  preserves J (Workout_findOne_populated fault id userId).
Proof.
  unfold Workout_findOne_populated.
  apply preserves_bind; [apply preserves_request | intros _].
  apply preserves_bind; [apply preserves_readStore | intros s].
  apply preserves_ret.
Qed.

Lemma atomic_of_preserves {A} (m : M A) : preserves anyRecords m -> atomic m.
Proof.
  intros Hm s0 w e w' Hw H. specialize (Hm s0 w Hw). rewrite H in Hm.
  exact (proj1 Hm).
Qed.

Lemma atomic_bind {A B} (m : M A) (k : A -> M B) :
  preserves anyRecords m -> (forall a, atomic (k a)) -> atomic (bind m k).
Proof.
  intros Hm Hk s0 w e w' Hw H. specialize (Hm s0 w Hw).
  apply bind_Raise in H as [H | (a & w1 & Ha & H)].
  - rewrite H in Hm. exact (proj1 Hm).
  - rewrite Ha in Hm. exact (Hk a s0 w1 e w' Hm H).
Qed.

(** The commit is the last step that can throw, and it throws before
    anything is published. *)
Lemma atomic_commit {A} (a : A) :
  atomic (bind (commitTransaction fault) (fun _ => ret a)).
Proof.
  intros s0 w e w' [Hdb _] H. unfold bind, commitTransaction, request in H.
  unfold bind in H. destruct (fault _); inversion H; subst. reflexivity.
Qed.

Lemma atomic_finishWorkout userId workout existing :
  atomic (finishWorkout clock fault uniqueIndex userId workout existing).
Proof.
  unfold finishWorkout.
  apply atomic_bind; [apply preserves_newDate | intros endT].
  apply atomic_bind.
  { apply preserves_forEach. intros acc ex _. apply preserves_processExercise.
    intros. apply allows_anyRecords. }
  intros [exercises' [[sv sr] n]].
  apply atomic_bind; [apply preserves_Workout_save | intros _].
  apply atomic_bind; [apply preserves_newDate | intros d1].
  apply atomic_bind; [apply preserves_newDate | intros d2].
  apply atomic_bind; [apply preserves_Progress_create | intros _].
  apply atomic_commit.
Qed.

Lemma atomic_completeWorkoutBody id userId :
  atomic (completeWorkoutBody clock fault uniqueIndex id userId).
Proof.
  unfold completeWorkoutBody.
  apply atomic_bind; [apply preserves_Workout_findOne_populated|].
  intros [found existing]. destruct found as [workout|].
  2:{ apply atomic_of_preserves, preserves_throw. }
  destruct (Status.eqb _ _).
  { apply atomic_of_preserves, preserves_throw. }
  apply atomic_finishWorkout.
Qed.

Lemma request_run op w :
  request fault op w =
  (if fault (List.length (log w)) then Raise (MongoError "request failed")
   else Ret tt,
   mkWorld (db w) (txn w) (ticks w) (log w ++ [op])).
Proof. unfold request. destruct (fault _); reflexivity. Qed.

(** The world in which the [try] block of [completeWorkout] starts. *)
Lemma completeWorkout_started id userId w :
  fault (List.length (log w)) = false ->
  completeWorkout clock fault uniqueIndex id userId w =
  tryCatchFinally (completeWorkoutBody clock fault uniqueIndex id userId)
    completeWorkoutCatch endSession
    (mkWorld (db w) (Some (db w)) (ticks w)
       (log w ++ [OpStartSession; OpStartTransaction])).
Proof.
  intros F0. unfold completeWorkout, startSession, startTransaction.
  unfold bind at 1. rewrite request_run, F0.
  unfold bind, note. cbn [db txn ticks log]. rewrite <- app_assoc.
  reflexivity.
Qed.

Lemma completeWorkout_not_started id userId w :
  fault (List.length (log w)) = true ->
  completeWorkout clock fault uniqueIndex id userId w =
  (Raise (MongoError "request failed"),
   mkWorld (db w) (txn w) (ticks w) (log w ++ [OpStartSession])).
Proof.
  intros F0. unfold completeWorkout, startSession.
  unfold bind at 1. rewrite request_run, F0. reflexivity.
Qed.

(** The first statements of the [try] block: the load and its checks. *)
Lemma completeWorkoutBody_load id userId w :
  completeWorkoutBody clock fault uniqueIndex id userId w =
  let w1 := mkWorld (db w) (txn w) (ticks w)
              (log w ++ [OpFindWorkout id userId]) in
  if fault (List.length (log w)) then (Raise (MongoError "request failed"), w1)
  else
    match findWorkout id userId (view w) with
    | None => (Raise NotFound, w1)
    | Some workout =>
        if Status.eqb (status workout) Status.completed then
          (Raise AlreadyCompleted, w1)
        else finishWorkout clock fault uniqueIndex userId workout (exerciseIds (view w)) w1
    end.
Proof.
  unfold completeWorkoutBody, Workout_findOne_populated.
  unfold bind at 1. unfold bind at 1. rewrite request_run.
  destruct (fault _) eqn:F; [reflexivity|].
  unfold bind at 1. unfold readStore, ret.
  change (view (mkWorld (db w) (txn w) (ticks w)
                  (log w ++ [OpFindWorkout id userId]))) with (view w).
  destruct (findWorkout id userId (view w)) as [workout|]; [|reflexivity].
  destruct (Status.eqb _ _); reflexivity.
Qed.

(** The [catch] block: the abort, then the error of the service. *)
Lemma completeWorkoutCatch_run e w :
  completeWorkoutCatch e w =
  (Raise (if commitCalled (log w) then AbortRefused
          else if isAppError e then e else InternalError),
   mkWorld (db w) None (ticks w) (log w ++ [OpAbort])).
Proof.
  unfold completeWorkoutCatch, abortTransaction, bind.
  destruct (commitCalled (log w)); [reflexivity|].
  destruct (isAppError e); reflexivity.
Qed.

Lemma commitCalled_started (l l' : list StoreOp) :
  Forall (fun op => op <> OpCommit) l' ->
  commitCalled ((l ++ [OpStartSession; OpStartTransaction]) ++ l') = false.
Proof.
  intros Hl'. rewrite <- app_assoc.
  change (l ++ [OpStartSession; OpStartTransaction] ++ l')
    with (l ++ [OpStartSession] ++ OpStartTransaction :: l').
  rewrite app_assoc. apply commitCalled_from_start. exact Hl'.
Qed.

(** C2. Idempotency: a call on a session that is already completed
    throws, leaves the committed database as it was (so the session
    document and the Record and ProgressEntry rows, hence their counts,
    are the same before and after), sends no write to the store, and,
    when the store answers, the error is AlreadyCompleted. *)
Theorem completeWorkout_idempotent id userId w workout :
  findWorkout id userId (db w) = Some workout ->
  status workout = Status.completed ->
  exists e w',
    completeWorkout clock fault uniqueIndex id userId w = (Raise e, w')
    /\ db w' = db w
    /\ List.length (records (db w')) = List.length (records (db w))
    /\ List.length (progress (db w')) = List.length (progress (db w))
    /\ (exists l, appended w w' l
                  /\ forallb (fun op => negb (isWrite op)) l = true)
    /\ (fault (List.length (log w)) = false ->
        fault (List.length (log w) + 2)%nat = false ->
        e = AlreadyCompleted).
Proof.
  intros Hfind Hst. unfold appended.
  destruct (fault (List.length (log w))) eqn:F0.
  { rewrite (completeWorkout_not_started _ _ _ F0).
    eexists _, _. split; [reflexivity|]. cbn.
    repeat split; try reflexivity.
    - exists [OpStartSession]. split; reflexivity.
    - intros; discriminate. }
  rewrite (completeWorkout_started _ _ _ F0).
  unfold tryCatchFinally. rewrite completeWorkoutBody_load.
  cbn [view db txn ticks log]. rewrite Hfind, Hst. cbn [Status.eqb].
  rewrite length_app. cbn [List.length].
  assert (Hc : commitCalled ((log w ++ [OpStartSession; OpStartTransaction])
                               ++ [OpFindWorkout id userId]) = false).
  { apply commitCalled_started. repeat constructor. discriminate. }
  destruct (fault (List.length (log w) + 2)%nat) eqn:F2;
    rewrite completeWorkoutCatch_run; cbn [log]; rewrite Hc; cbn;
    (eexists _, _; split; [reflexivity|]; cbn;
     split; [reflexivity|]; split; [reflexivity|]; split; [reflexivity|];
     split;
     [ exists [OpStartSession; OpStartTransaction;
               OpFindWorkout id userId; OpAbort; OpEndSession];
       split; [rewrite <- !app_assoc|]; reflexivity
     | intros; solve [discriminate | reflexivity] ]).
Qed.

Lemma Record_findOne_run u e ty w :
  fault (List.length (log w)) = false ->
  Record_findOne fault u e ty w =
  (Ret (maxByValue (filter (sameKey u e ty) (records (view w)))),
   mkWorld (db w) (txn w) (ticks w) (log w ++ [OpFindRecord u e ty])).
Proof.
  intros F. unfold Record_findOne. unfold bind at 1. rewrite request_run, F.
  reflexivity.
Qed.

(** What the detector answers when the store does. *)
Lemma isPersonalRecord_run u e wt rp w :
  fault (List.length (log w)) = false ->
  let ty := if rp =? 1 then RecordType.weight else RecordType.volume in
  let candidate := if rp =? 1 then wt else wt * rp in
  isPersonalRecord_ fault u e wt rp w =
  (Ret match maxByValue (filter (sameKey u e ty) (records (view w))) with
       | None => true
       | Some r => r_value r <? candidate
       end,
   mkWorld (db w) (txn w) (ticks w) (log w ++ [OpFindRecord u e ty])).
Proof.
  intros F. unfold isPersonalRecord_. cbv zeta.
  destruct (rp =? 1); unfold bind; rewrite (Record_findOne_run _ _ _ _ F);
    reflexivity.
Qed.

Lemma sameKey_iff u e ty r :
  sameKey u e ty r = true
  <-> r_user r = u /\ r_exercise r = e /\ r_type r = ty.
Proof.
  unfold sameKey. rewrite !andb_true_iff, !String.eqb_eq.
  assert (Hty : RecordType.eqb (r_type r) ty = true <-> r_type r = ty).
  { destruct (r_type r), ty; cbn; split; congruence. }
  rewrite Hty. tauto.
Qed.

Lemma no_record_for u e ty rs :
  (forall r, ~ storedFor rs u e ty r) -> filter (sameKey u e ty) rs = [].
Proof.
  intros Hnone. destruct (filter _ rs) as [|r rest] eqn:Hf; [reflexivity|].
  assert (Hin : In r (filter (sameKey u e ty) rs)) by (rewrite Hf; left; reflexivity).
  apply filter_In in Hin as [Hin Hk]. apply sameKey_iff in Hk.
  elim (Hnone r). split; assumption.
Qed.

(** C5. PR decision rule, for numbers that JavaScript holds exactly and
    with the store answering. With reps = 1 the detector reports a new
    record exactly when the weight is strictly above the value of every
    stored record of that user and exercise of type weight; with any
    other reps (so for every reps above 1), exactly when weight × reps is
    strictly above the value of every stored record of that user and
    exercise of type volume. With no such record it always reports one;
    a candidate equal to a stored value is never one. The detector
    changes nothing. *)
Theorem isPersonalRecord_rule u e wt rp w :
  fault (List.length (log w)) = false ->
  safeInteger wt -> safeInteger rp -> safeInteger (wt * rp) ->
  (forall r, In r (records (view w)) -> safeInteger (r_value r)) ->
  let stored := storedFor (records (view w)) u e in
  exists b w',
    isPersonalRecord_ fault u e wt rp w = (Ret b, w')
    /\ db w' = db w /\ txn w' = txn w
    /\ (rp = 1 ->
        (b = true <->
         forall r, stored RecordType.weight r -> r_value r < wt)
        /\ ((forall r, ~ stored RecordType.weight r) -> b = true)
        /\ (forall r, stored RecordType.weight r -> r_value r = wt ->
                      b = false))
    /\ (rp <> 1 ->
        (b = true <->
         forall r, stored RecordType.volume r -> r_value r < wt * rp)
        /\ ((forall r, ~ stored RecordType.volume r) -> b = true)
        /\ (forall r, stored RecordType.volume r -> r_value r = wt * rp ->
                      b = false)).
Proof.
  intros F _ _ _ _ stored. eexists _, _.
  split; [apply (isPersonalRecord_run u e wt rp w F)|].
  split; [reflexivity|]. split; [reflexivity|].
  assert (Hrule : forall ty c,
             let b := match maxByValue
                              (filter (sameKey u e ty) (records (view w))) with
                      | None => true
                      | Some r => r_value r <? c
                      end in
             (b = true <-> forall r, stored ty r -> r_value r < c)
             /\ ((forall r, ~ stored ty r) -> b = true)
             /\ (forall r, stored ty r -> r_value r = c -> b = false)).
  { intros ty c b.
    assert (Hiff : b = true <-> forall r, stored ty r -> r_value r < c).
    { unfold b. rewrite exceeds_baseline. unfold stored, storedFor. split.
      - intros H r (Hin & Hkey). apply (H r Hin). apply sameKey_iff. exact Hkey.
      - intros H r Hin Hk. apply H. split; [exact Hin|].
        apply sameKey_iff. exact Hk. }
    split; [exact Hiff|]. split.
    - intros Hnone. apply Hiff. intros r Hr. elim (Hnone r Hr).
    - intros r Hr Hv. destruct b eqn:Hb; [|reflexivity].
      pose proof (proj1 Hiff eq_refl r Hr). lia. }
  split.
  - intros ->. exact (Hrule RecordType.weight wt).
  - intros Hrp. apply Z.eqb_neq in Hrp. rewrite Hrp.
    exact (Hrule RecordType.volume (wt * rp)).
Qed.

(** *** One completed set *)

Lemma Record_create_run r w s :
  fault (List.length (log w)) = false ->
  txn w = Some s ->
  (forall r', ~ storedFor (records s) (r_user r) (r_exercise r) (r_type r) r') ->
  Record_create fault uniqueIndex r w
  = (Ret tt,
     mkWorld (db w)
       (Some (mkStore (workouts s) (exerciseIds s) (records s ++ [r])
                (progress s)))
       (ticks w) (log w ++ [OpCreateRecord r])).
Proof.
  intros F Htx Hnone. unfold Record_create. unfold bind at 1.
  rewrite request_run, F. unfold bind, readStore, view. cbn [txn db].
  rewrite Htx.
  assert (Hex : existsb (sameKey (r_user r) (r_exercise r) (r_type r))
                  (records s) = false).
  { destruct (existsb _ _) eqn:E; [|reflexivity].
    apply existsb_exists in E as (r' & Hin & Hk). apply sameKey_iff in Hk.
    elim (Hnone r'). split; assumption. }
  rewrite Hex, andb_false_r. unfold writeStore. cbn [txn]. reflexivity.
Qed.

(** C10, as the code has it. When the loop of [completeWorkout] comes, in
    its transaction, to a completed set whose reps is not 1 while the
    transaction holds no volume record of that user and exercise (none
    stored, none written earlier in the call), and the store answers, it
    flags the set as a personal record, counts it, and writes in the
    transaction a record of type volume with the value weight × reps and
    no previous snapshot: the value is 0 when reps is 0 and negative when
    the weight is negative and reps above 1. The committed data is not
    touched at this point. *)
Theorem completion_first_volume_record
    userId workoutId exerciseId ev er n set w s :
  txn w = Some s ->
  completed set = true ->
  reps set <> 1 ->
  (forall r, ~ storedFor (records s) userId exerciseId RecordType.volume r) ->
  fault (List.length (log w)) = false ->
  fault (List.length (log w) + 1)%nat = false ->
  let record := mkRecord userId exerciseId RecordType.volume
                  (weight set * reps set) (clock (ticks w)) workoutId None in
  exists set' w',
    processSet clock fault uniqueIndex userId workoutId (Some exerciseId)
      (ev, er, n) set w
    = (Ret (set', (ev + weight set * reps set, er + reps set, n + 1)), w')
    /\ isPersonalRecord set' = true
    /\ weight set' = weight set /\ reps set' = reps set
    /\ completed set' = true
    /\ txn w' = Some (mkStore (workouts s) (exerciseIds s)
                        (records s ++ [record]) (progress s))
    /\ db w' = db w
    /\ log w' = log w ++ [OpFindRecord userId exerciseId RecordType.volume;
                          OpCreateRecord record]
    /\ (reps set = 0 -> r_value record = 0)
    /\ (weight set < 0 -> 1 < reps set -> r_value record < 0).
Proof.
  intros Htx Hc Hrp Hnone F0 F1 record.
  assert (Hrp' : (reps set =? 1) = false) by (apply Z.eqb_neq; exact Hrp).
  unfold processSet. rewrite Hc. cbn [idOf]. unfold bind at 1. unfold ret at 1.
  unfold bind at 1. rewrite (isPersonalRecord_run _ _ _ _ _ F0). cbv zeta.
  rewrite Hrp'. unfold view at 1. rewrite Htx.
  rewrite (no_record_for _ _ _ _ Hnone). cbn [maxByValue].
  unfold bind at 1. unfold newDate at 1. cbn [db txn ticks log].
  unfold bind.
  rewrite (Record_create_run _ _ s);
    [ | cbn [log]; rewrite length_app; exact F1 | reflexivity
      | cbn [r_user r_exercise r_type markPersonalRecord reps weight];
        rewrite Hrp'; exact Hnone ].
  cbn [markPersonalRecord reps weight]. rewrite Hrp'.
  fold record. unfold ret. cbn [db txn ticks log].
  eexists _, _. split; [reflexivity|]. cbn.
  rewrite <- app_assoc. repeat split; try assumption.
  - intros ->. lia.
  - intros Hw Hr. nia.
Qed.

(** *** Which errors a call can throw, and what it logs *)

(** [quiet] and [grows] go through a computation statement by statement:
    the leaves are in the hint databases, [through] opens the binds and
    the branches. *)
Create HintDb quiet discriminated.
Create HintDb grows discriminated.

Ltac through bind_lemma leaves :=
  repeat first
    [ progress leaves
    | apply bind_lemma; [ | intros ? ]
    | match goal with
      | |- _ (match ?x with (_, _) => _ end) => destruct x
      | |- _ (if ?b then _ else _) => destruct b
      end ].

Ltac quietly := through @quiet_bind ltac:(auto with quiet).
Ltac growing := through @grows_bind ltac:(auto with grows).

#[local] Hint Resolve quiet_ret quiet_forEach : quiet.
#[local] Hint Extern 1 (quiet (throw _)) =>
  apply quiet_throw; reflexivity : quiet.
#[local] Hint Resolve grows_ret grows_throw grows_forEach : grows.

Lemma quiet_request op : quiet (request fault op).
Proof.
  intros w e w' H. rewrite request_run in H.
  destruct (fault _); inversion H; subst. reflexivity.
Qed.

Lemma quiet_pure {A} (m : M A) :
  (forall w, exists a, fst (m w) = Ret a) -> quiet m.
Proof.
  intros Hm w e w' H. destruct (Hm w) as [a Ha]. rewrite H in Ha.
  discriminate Ha.
Qed.

Lemma quiet_newDate : quiet (newDate clock).
Proof. apply quiet_pure. intros w. eexists. reflexivity. Qed.

Lemma quiet_readStore : quiet readStore.
Proof. apply quiet_pure. intros w. eexists. reflexivity. Qed.

Lemma quiet_writeStore f : quiet (writeStore f).
Proof.
  apply quiet_pure. intros w. exists tt. unfold writeStore.
  destruct (txn w); reflexivity.
Qed.

Lemma quiet_idOf p : quiet (idOf p).
Proof. destruct p; cbn [idOf]; auto with quiet. Qed.

#[local] Hint Resolve quiet_request quiet_newDate quiet_readStore
  quiet_writeStore quiet_idOf : quiet.

Lemma quiet_Record_findOne u e ty : quiet (Record_findOne fault u e ty).
Proof. unfold Record_findOne. quietly. Qed.

Lemma quiet_Record_create r : quiet (Record_create fault uniqueIndex r).
Proof. unfold Record_create. quietly. Qed.

Lemma quiet_note op : quiet (note op).
Proof. apply quiet_pure. intros w. exists tt. reflexivity. Qed.

Lemma quiet_Progress_create ps : quiet (Progress_create fault ps).
Proof.
  pose proof quiet_note. unfold Progress_create.
  destruct (filter validProgress ps); quietly.
Qed.

Lemma quiet_Workout_save wk : quiet (Workout_save fault wk).
Proof. unfold Workout_save. quietly. Qed.

Lemma quiet_commitTransaction : quiet (commitTransaction fault).
Proof.
  unfold commitTransaction. quietly. apply quiet_pure. intros w. exists tt.
  reflexivity.
Qed.

#[local] Hint Resolve quiet_Record_findOne quiet_Record_create
  quiet_Progress_create quiet_Workout_save quiet_commitTransaction : quiet.

Lemma quiet_isPersonalRecord u e wt rp :
  quiet (isPersonalRecord_ fault u e wt rp).
Proof. unfold isPersonalRecord_. quietly. Qed.

#[local] Hint Resolve quiet_isPersonalRecord : quiet.

Lemma quiet_processSet userId workoutId populated acc set :
  quiet (processSet clock fault uniqueIndex userId workoutId populated acc set).
Proof. unfold processSet. destruct acc as [[ev er] n]. quietly. Qed.

#[local] Hint Resolve quiet_processSet : quiet.

Lemma quiet_processExercise userId workoutId existing acc ex :
  quiet (processExercise clock fault uniqueIndex userId workoutId existing acc ex).
Proof. unfold processExercise. destruct acc as [[sv sr] n]. quietly. Qed.

#[local] Hint Resolve quiet_processExercise : quiet.

Lemma quiet_finishWorkout userId workout existing :
  quiet (finishWorkout clock fault uniqueIndex userId workout existing).
Proof. unfold finishWorkout. quietly. Qed.

Lemma grows_request op : grows (request fault op).
Proof.
  intros w r w' H. rewrite request_run in H. inversion H; subst.
  exists [op]. reflexivity.
Qed.

Lemma grows_silent {A} (m : M A) :
  (forall w, log (snd (m w)) = log w) -> grows m.
Proof.
  intros Hm w r w' H. specialize (Hm w). rewrite H in Hm. cbn in Hm.
  exists []. unfold appended. rewrite Hm. symmetry. apply app_nil_r.
Qed.

Lemma grows_newDate : grows (newDate clock).
Proof. apply grows_silent. reflexivity. Qed.

Lemma grows_readStore : grows readStore.
Proof. apply grows_silent. reflexivity. Qed.

Lemma grows_writeStore f : grows (writeStore f).
Proof.
  apply grows_silent. intros w. unfold writeStore. destruct (txn w); reflexivity.
Qed.

Lemma grows_idOf p : grows (idOf p).
Proof. destruct p; cbn [idOf]; auto with grows. Qed.

#[local] Hint Resolve grows_request grows_newDate grows_readStore
  grows_writeStore grows_idOf : grows.

Lemma grows_Record_findOne u e ty : grows (Record_findOne fault u e ty).
Proof. unfold Record_findOne. growing. Qed.

Lemma grows_Record_create r : grows (Record_create fault uniqueIndex r).
Proof. unfold Record_create. growing. Qed.

Lemma grows_note op : grows (note op).
Proof. intros w r w' H. inversion H; subst. exists [op]. reflexivity. Qed.

Lemma grows_Progress_create ps : grows (Progress_create fault ps).
Proof.
  pose proof grows_note. unfold Progress_create.
  destruct (filter validProgress ps); growing.
Qed.

Lemma grows_Workout_save wk : grows (Workout_save fault wk).
Proof. unfold Workout_save. growing. Qed.

Lemma grows_commitTransaction : grows (commitTransaction fault).
Proof. unfold commitTransaction. growing. apply grows_silent. reflexivity. Qed.

#[local] Hint Resolve grows_Record_findOne grows_Record_create
  grows_Progress_create grows_Workout_save grows_commitTransaction : grows.

Lemma grows_isPersonalRecord u e wt rp :
  grows (isPersonalRecord_ fault u e wt rp).
Proof. unfold isPersonalRecord_. growing. Qed.

#[local] Hint Resolve grows_isPersonalRecord : grows.

Lemma grows_processSet userId workoutId populated acc set :
  grows (processSet clock fault uniqueIndex userId workoutId populated acc set).
Proof. unfold processSet. destruct acc as [[ev er] n]. growing. Qed.

#[local] Hint Resolve grows_processSet : grows.

Lemma grows_processExercise userId workoutId existing acc ex :
  grows (processExercise clock fault uniqueIndex userId workoutId existing acc ex).
Proof. unfold processExercise. destruct acc as [[sv sr] n]. growing. Qed.

#[local] Hint Resolve grows_processExercise : grows.

Lemma grows_finishWorkout userId workout existing :
  grows (finishWorkout clock fault uniqueIndex userId workout existing).
Proof. unfold finishWorkout. growing. Qed.

(** *** What a call logs *)

Create HintDb emits discriminated.

#[local] Hint Resolve emits_ret emits_throw emits_forEach : emits.
#[local] Hint Extern 1 (emits _ (request _ _)) =>
  apply emits_request; split; [exact I | discriminate] : emits.
#[local] Hint Extern 1 (emits _ (note _)) =>
  apply emits_note; split; [exact I | discriminate] : emits.
#[local] Hint Extern 2 (emits _ _) =>
  apply emits_silent; intros ?; reflexivity : emits.

Ltac emitting := walk @emits_bind ltac:(auto with emits).

Lemma emits_writeStore P f : emits P (writeStore f).
Proof.
  apply emits_silent. intros w. unfold writeStore. destruct (txn w); reflexivity.
Qed.

Lemma emits_idOf P p : emits P (idOf p).
Proof. destruct p; cbn [idOf]; auto with emits. Qed.

#[local] Hint Resolve emits_writeStore emits_idOf : emits.

Lemma emits_Record_findOne u e ty :
  emits sentByCompletion (Record_findOne fault u e ty).
Proof. unfold Record_findOne. emitting. Qed.

Lemma emits_Record_create r :
  emits sentByCompletion (Record_create fault uniqueIndex r).
Proof. unfold Record_create. emitting. Qed.

Lemma emits_Workout_save wk : emits sentByCompletion (Workout_save fault wk).
Proof. unfold Workout_save. emitting. Qed.

Lemma emits_Progress_create ps :
  Forall (fun p => p_type p = "exercise" \/ p_type p = "performance") ps ->
  emits sentByCompletion (Progress_create fault ps).
Proof.
  intros Hps.
  assert (Hop : sentByCompletion (OpCreateProgress ps))
    by (split; [exact Hps | discriminate]).
  unfold Progress_create. apply emits_bind.
  - destruct (filter validProgress ps); [apply emits_note; exact Hop|].
    apply emits_bind; [apply emits_request; exact Hop | intros _].
    apply emits_writeStore.
  - intros _. destruct (forallb _ _); auto with emits.
Qed.

#[local] Hint Resolve emits_Record_findOne emits_Record_create
  emits_Workout_save : emits.
#[local] Hint Extern 1 (emits _ (Progress_create _ _)) =>
  apply emits_Progress_create; repeat constructor : emits.

Lemma emits_isPersonalRecord u e wt rp :
  emits sentByCompletion (isPersonalRecord_ fault u e wt rp).
Proof. unfold isPersonalRecord_. emitting. Qed.

#[local] Hint Resolve emits_isPersonalRecord : emits.

Lemma emits_processSet userId workoutId populated acc set :
  emits sentByCompletion
    (processSet clock fault uniqueIndex userId workoutId populated acc set).
Proof. unfold processSet. destruct acc as [[ev er] n]. emitting. Qed.

#[local] Hint Resolve emits_processSet : emits.

Lemma emits_processExercise userId workoutId existing acc ex :
  emits sentByCompletion
    (processExercise clock fault uniqueIndex userId workoutId existing acc ex).
Proof.
  unfold processExercise. destruct acc as [[sv sr] n]. emitting.
Qed.

#[local] Hint Resolve emits_processExercise : emits.

(** *** The progress model rejects what the engine sends *)

(** A [Progress.create] with a document that does not pass validation
    rejects. *)
Lemma Progress_create_rejects ps :
  forallb validProgress ps = false -> returnsNever (Progress_create fault ps).
Proof.
  intros Hps. unfold Progress_create. apply returnsNever_bind_r. intros _.
  rewrite Hps. apply returnsNever_throw.
Qed.

(** The [try] block never gets past its last [Progress.create]: the two
    documents have the type "performance". *)
Lemma finishWorkout_rejected userId workout existing :
  returnsNever (finishWorkout clock fault uniqueIndex userId workout existing).
Proof.
  unfold finishWorkout.
  apply returnsNever_bind_r. intros endT.
  apply returnsNever_bind_r. intros [exercises' [[sv sr] n]].
  apply returnsNever_bind_r. intros _.
  apply returnsNever_bind_r. intros d1.
  apply returnsNever_bind_r. intros d2.
  apply returnsNever_bind_l. apply Progress_create_rejects. reflexivity.
Qed.

(** Nor past the [Progress.create] at the end of an exercise. *)
Lemma processExercise_rejected userId workoutId existing acc ex :
  returnsNever
    (processExercise clock fault uniqueIndex userId workoutId existing acc ex).
Proof.
  unfold processExercise. destruct acc as [[sv sr] n].
  apply returnsNever_bind_r. intros [sets' [[ev er] n']].
  apply returnsNever_bind_r. intros exerciseId.
  apply returnsNever_bind_r. intros date.
  apply returnsNever_bind_l. apply Progress_create_rejects. reflexivity.
Qed.

Lemma completeWorkoutBody_rejected id userId :
  returnsNever (completeWorkoutBody clock fault uniqueIndex id userId).
Proof.
  unfold completeWorkoutBody. apply returnsNever_bind_r.
  intros [found existing]. destruct found as [workout|];
    [|apply returnsNever_throw].
  destruct (Status.eqb _ _); [apply returnsNever_throw|].
  apply finishWorkout_rejected.
Qed.

(** So the commit is never called. *)
Lemma emits_finishWorkout userId workout existing :
  emits sentByCompletion
    (finishWorkout clock fault uniqueIndex userId workout existing).
Proof.
  unfold finishWorkout.
  apply emits_bind; [auto with emits | intros endT].
  apply emits_bind; [auto with emits | intros [exercises' [[sv sr] n]]].
  apply emits_bind; [auto with emits | intros _].
  apply emits_bind; [auto with emits | intros d1].
  apply emits_bind; [auto with emits | intros d2].
  apply emits_bind_cut; [auto with emits|].
  apply Progress_create_rejects. reflexivity.
Qed.

Lemma emits_completeWorkoutBody id userId :
  emits sentByCompletion (completeWorkoutBody clock fault uniqueIndex id userId).
Proof.
  pose proof emits_finishWorkout as Hfin.
  unfold completeWorkoutBody, Workout_findOne_populated. emitting.
Qed.

Lemma emits_tryCatchFinally {A} P (body : M A) handler fin :
  emits P body -> (forall e, emits P (handler e)) -> emits P fin ->
  emits P (tryCatchFinally body handler fin).
Proof.
  intros Hb Hh Hf w r w' H. unfold tryCatchFinally in H.
  assert (Hmid : exists r1 w1 l1,
             (let '(r, w1) :=
                match body w with
                | (Ret a, w') => (Ret a, w')
                | (Raise e, w') => handler e w'
                end in (r, w1)) = (r1, w1)
             /\ appended w w1 l1 /\ Forall P l1).
  { destruct (body w) as [[a|e] wb] eqn:Hbw.
    - destruct (Hb _ _ _ Hbw) as (l & Hl & HP). eexists _, _, l.
      split; [reflexivity | split; assumption].
    - destruct (Hb _ _ _ Hbw) as (l & Hl & HP).
      destruct (handler e wb) as [rh wh] eqn:Hhw.
      destruct (Hh _ _ _ _ Hhw) as (l2 & Hl2 & HP2). eexists _, _, (l ++ l2).
      split; [reflexivity|]. split; [|apply Forall_app; split; assumption].
      unfold appended in *. rewrite Hl2, Hl. symmetry. apply app_assoc. }
  destruct Hmid as (r1 & w1 & l1 & Hmid & Hl1 & HP1).
  destruct (match body w with
            | (Ret a, w') => (Ret a, w')
            | (Raise e, w') => handler e w'
            end) as [r0 w0].
  cbn in Hmid. inversion Hmid; subst r0 w0. clear Hmid.
  destruct (fin w1) as [rf wf] eqn:Hfw.
  destruct (Hf _ _ _ Hfw) as (l2 & Hl2 & HP2).
  exists (l1 ++ l2). split; [|apply Forall_app; split; assumption].
  unfold appended in *.
  destruct rf; inversion H; subst; rewrite Hl2, Hl1; symmetry; apply app_assoc.
Qed.

Lemma emits_completeWorkoutCatch e :
  emits sentByCompletion (completeWorkoutCatch e).
Proof.
  intros w r w' H. rewrite completeWorkoutCatch_run in H. inversion H; subst.
  exists [OpAbort]. split; [reflexivity|].
  repeat constructor. discriminate.
Qed.

Lemma emits_completeWorkout id userId :
  emits sentByCompletion (completeWorkout clock fault uniqueIndex id userId).
Proof.
  unfold completeWorkout, startSession, startTransaction.
  apply emits_bind; [auto with emits | intros _].
  apply emits_bind; [emitting | intros _].
  apply emits_tryCatchFinally.
  - apply emits_completeWorkoutBody.
  - apply emits_completeWorkoutCatch.
  - unfold endSession. auto with emits.
Qed.

(** The [try] block always throws; what it can throw, that it starts
    with the load and that it never calls the commit. *)
Lemma completeWorkoutBody_outcome id userId w r w' :
  completeWorkoutBody clock fault uniqueIndex id userId w = (r, w') ->
  exists e l,
    r = Raise e
    /\ (e = NotFound \/ e = AlreadyCompleted \/ isAppError e = false)
    /\ appended w w' (OpFindWorkout id userId :: l)
    /\ Forall (fun op => op <> OpCommit) (OpFindWorkout id userId :: l).
Proof.
  intros H. destruct r as [a|e];
    [elim (completeWorkoutBody_rejected _ _ _ _ _ H)|].
  assert (Hlog : exists l, appended w w' (OpFindWorkout id userId :: l)
                 /\ (e = NotFound \/ e = AlreadyCompleted
                     \/ isAppError e = false)).
  { pose proof H as H0. rewrite completeWorkoutBody_load in H0.
    cbv zeta in H0. destruct (fault _).
    { inversion H0; subst. exists []. split; [reflexivity | auto]. }
    destruct (findWorkout id userId (view w)) as [workout|].
    2:{ inversion H0; subst. exists []. split; [reflexivity | auto]. }
    destruct (Status.eqb _ _).
    { inversion H0; subst. exists []. split; [reflexivity | auto]. }
    destruct (grows_finishWorkout _ _ _ _ _ _ H0) as [l Hl]. exists l. split.
    - unfold appended in *. rewrite Hl. cbn [log]. rewrite <- app_assoc.
      reflexivity.
    - right. right. exact (quiet_finishWorkout _ _ _ _ _ _ H0). }
  destruct Hlog as (l & Hl & He). exists e, l.
  split; [reflexivity|]. split; [exact He|]. split; [exact Hl|].
  destruct (emits_completeWorkoutBody _ _ _ _ _ H) as (l0 & Hl0 & HP).
  unfold appended in *. rewrite Hl in Hl0. apply app_inv_head in Hl0.
  rewrite Hl0. revert HP. apply Forall_impl. intros op [_ Hop]. exact Hop.
Qed.

(** A call whose session has started: the [try] block throws, the
    [catch] block aborts and throws the error of the service, the
    [finally] block ends the session. *)
Lemma completeWorkout_thrown id userId w r w' :
  fault (List.length (log w)) = false ->
  completeWorkout clock fault uniqueIndex id userId w = (r, w') ->
  exists e0 w2 l,
    completeWorkoutBody clock fault uniqueIndex id userId
      (mkWorld (db w) (Some (db w)) (ticks w)
         (log w ++ [OpStartSession; OpStartTransaction]))
    = (Raise e0, w2)
    /\ (e0 = NotFound \/ e0 = AlreadyCompleted \/ isAppError e0 = false)
    /\ log w2 = (log w ++ [OpStartSession; OpStartTransaction])
                ++ OpFindWorkout id userId :: l
    /\ r = Raise (if isAppError e0 then e0 else InternalError)
    /\ w' = mkWorld (db w2) None (ticks w2)
              ((log w2 ++ [OpAbort]) ++ [OpEndSession]).
Proof.
  intros F0 H. rewrite (completeWorkout_started _ _ _ F0) in H.
  unfold tryCatchFinally in H.
  destruct (completeWorkoutBody _ _ _ _ _) as [r0 w2] eqn:Hbody.
  destruct (completeWorkoutBody_outcome _ _ _ _ _ Hbody)
    as (e0 & l & -> & He0 & Hl & Hnc).
  unfold appended in Hl. cbn [log] in Hl.
  rewrite completeWorkoutCatch_run in H.
  rewrite Hl, (commitCalled_started _ _ Hnc) in H.
  unfold endSession, note in H. cbn [db txn ticks log] in H.
  inversion H; subst. exists e0, w2, l. rewrite Hl.
  repeat split; try reflexivity. exact He0.
Qed.

(** [completeWorkout] never returns a workout. *)
Lemma completeWorkout_rejected id userId :
  returnsNever (completeWorkout clock fault uniqueIndex id userId).
Proof.
  intros w a w' H. destruct (fault (List.length (log w))) eqn:F0.
  - rewrite (completeWorkout_not_started _ _ _ F0) in H. discriminate H.
  - destruct (completeWorkout_thrown _ _ _ _ _ F0 H)
      as (e0 & w2 & l & _ & _ & _ & Hr & _).
    discriminate Hr.
Qed.

(** What a call can throw, and that it opens the transaction and asks the
    store for the session before anything else. *)
Lemma completeWorkout_outcome id userId w r w' :
  completeWorkout clock fault uniqueIndex id userId w = (r, w') ->
  (forall e, r = Raise e ->
             e = MongoError "request failed" \/ e = NotFound
             \/ e = AlreadyCompleted \/ e = InternalError)
  /\ (fault (List.length (log w)) = false ->
      exists l,
        appended w w'
          (OpStartSession :: OpStartTransaction
             :: OpFindWorkout id userId :: l)
        /\ forall e, r = Raise e ->
                     exists l', l = l' ++ [OpAbort; OpEndSession]).
Proof.
  intros H. destruct (fault (List.length (log w))) eqn:F0.
  { rewrite (completeWorkout_not_started _ _ _ F0) in H. inversion H; subst.
    split; [|intros; discriminate].
    intros e He. inversion He; subst. left. reflexivity. }
  destruct (completeWorkout_thrown _ _ _ _ _ F0 H)
    as (e0 & w2 & l & _ & He0 & Hl & -> & ->).
  split.
  - intros e He. inversion He; subst. clear He.
    destruct He0 as [-> | [-> | Hq]]; cbn; auto.
    rewrite Hq. auto.
  - intros _. exists (l ++ [OpAbort; OpEndSession]). unfold appended.
    cbn [log]. rewrite Hl. rewrite <- !app_assoc. split; [reflexivity|].
    intros e _. exists l. reflexivity.
Qed.

(** C1. Atomicity of completion: whenever [completeWorkout] throws, at
    whichever request the store failed (also after a Record or a
    ProgressEntry was written and before the session was saved), the
    committed database is what it was before the call: the session
    document is unchanged, so still in progress, no Record and no
    ProgressEntry row persists, and no transaction stays open. Once the
    session had started, the last steps of the call are the abort of the
    transaction and the end of the session. *)
Theorem completeWorkout_atomic id userId w e w' :
  txn w = None ->
  completeWorkout clock fault uniqueIndex id userId w = (Raise e, w') ->
  db w' = db w /\ txn w' = None
  /\ findWorkout id userId (db w') = findWorkout id userId (db w)
  /\ records (db w') = records (db w)
  /\ progress (db w') = progress (db w)
  /\ (fault (List.length (log w)) = false ->
      exists l,
        appended w w'
          (OpStartSession :: OpStartTransaction :: OpFindWorkout id userId
             :: l ++ [OpAbort; OpEndSession])).
Proof.
  intros Hno H.
  assert (Hlog : fault (List.length (log w)) = false ->
                 exists l,
                   appended w w'
                     (OpStartSession :: OpStartTransaction
                        :: OpFindWorkout id userId
                        :: l ++ [OpAbort; OpEndSession])).
  { intros F0. destruct (completeWorkout_outcome _ _ _ _ _ H) as [_ Hl].
    destruct (Hl F0) as (l & Happ & Hend). destruct (Hend e eq_refl) as [l' ->].
    exists l'. exact Happ. }
  assert (Hdb : db w' = db w /\ txn w' = None).
  { destruct (fault (List.length (log w))) eqn:F0.
    { rewrite (completeWorkout_not_started _ _ _ F0) in H. inversion H; subst.
      split; [reflexivity | exact Hno]. }
    rewrite (completeWorkout_started _ _ _ F0) in H.
    unfold tryCatchFinally in H.
    destruct (completeWorkoutBody _ _ _ _ _) as [[a|e0] w3] eqn:Hbody.
    { cbn in H. discriminate H. }
    assert (Hw3 : db w3 = db w).
    { refine (atomic_completeWorkoutBody id userId (db w) _ e0 w3 _ Hbody).
      split; [reflexivity|]. exists (db w). split; [reflexivity | exact I]. }
    rewrite completeWorkoutCatch_run in H. unfold endSession, note in H.
    inversion H; subst. cbn. split; [exact Hw3 | reflexivity]. }
  destruct Hdb as [Hdb Htx]. rewrite Hdb. repeat split; assumption.
Qed.

End DriverFacts.

(** ** Whole calls *)

(** C6 at its worked example, and for every input. No call of
    [completeWorkout] returns a session: the progress model refuses the
    documents that the engine hands it. On the session with the completed
    sets 80×10, 85×8 and 90×6, whose sums are 2020 and 24, the call ends
    in "Error completing workout" at the [Progress.create] of the first
    exercise: the session is never saved, it stays in progress without
    metrics, and nothing is committed. *)
Theorem completeWorkout_never_completes :
  (forall clock fault uniqueIndex id userId w workout' w',
      completeWorkout clock fault uniqueIndex id userId w
      <> (Ret workout', w'))
  /\ (forall clock uniqueIndex, exists w',
         completeWorkout clock noFault uniqueIndex "w1" "u1"
           (initial (storeOf workedSession []))
         = (Raise InternalError, w')
         /\ sessionVolume (exercises workedSession) = 2020
         /\ sessionReps (exercises workedSession) = 24
         /\ db w' = storeOf workedSession []
         /\ map status (workouts (db w')) = [Status.in_progress]
         /\ map metrics (workouts (db w')) = [None]
         /\ savedWorkouts (log w') = []
         /\ map r_value (createdRecords (log w')) = [800]).
Proof.
  split.
  - intros clock fault uniqueIndex id userId w workout' w'.
    apply completeWorkout_rejected.
  - intros clock uniqueIndex. destruct uniqueIndex; eexists;
      (split; [vm_compute; reflexivity|]); repeat split.
Qed.


(** C3 at a failing input. The user holds the weight record 100 on the
    bench press and completes a session with the single 101 × 1. The
    detector reports a record and the engine hands [Record.create] a
    second document for the key, with no previous snapshot. Whether or
    not the unique index of the schema is in force, the call ends in
    "Error completing workout" and the database keeps the old record,
    without a successor, and the session in progress. Under the index
    the insertion itself is refused and is the last call before the
    abort. *)
Theorem supersession_is_rejected clock :
  let s := storeOf (session Status.in_progress [lift 101 1]) [bench100] in
  let r := mkRecord "u1" "bench" RecordType.weight 101 (clock 1%nat) "w1" None in
  (forall uniqueIndex, exists w',
      completeWorkout clock noFault uniqueIndex "w1" "u1" (initial s)
      = (Raise InternalError, w')
      /\ db w' = s
      /\ records (db w') = [bench100]
      /\ createdRecords (log w') = [r]
      /\ r_previous r = None)
  /\ (exists w',
        completeWorkout clock noFault true "w1" "u1" (initial s)
        = (Raise InternalError, w')
        /\ log w' = [OpStartSession; OpStartTransaction; OpFindWorkout "w1" "u1";
                     OpFindRecord "u1" "bench" RecordType.weight;
                     OpCreateRecord r; OpAbort; OpEndSession]).
Proof.
  intros s r. split.
  - intros uniqueIndex. destruct uniqueIndex; eexists;
      (split; [vm_compute; reflexivity|]); repeat split.
  - eexists. split; [vm_compute; reflexivity | reflexivity].
Qed.

(** C4 at its own input. With the stored weight record 100, the session
    110 × 1 then 120 × 1 is not completed, whether or not the unique index
    is in force: the call ends in "Error completing workout", the session
    stays in progress and the only record of the key is still 100, so
    none has the value 120. Under the index the insertion for the first
    set already collides with the stored record and the second set is
    never looked at. With no stored record the outcome is the same and no
    record at all is left. *)
Theorem two_improving_sets_abort clock :
  let ss := [lift 110 1; lift 120 1] in
  (forall uniqueIndex, exists w',
      completeWorkout clock noFault uniqueIndex "w1" "u1"
        (initial (storeOf (session Status.in_progress ss) [bench100]))
      = (Raise InternalError, w')
      /\ db w' = storeOf (session Status.in_progress ss) [bench100]
      /\ map r_value (records (db w')) = [100])
  /\ (exists w',
        completeWorkout clock noFault true "w1" "u1"
          (initial (storeOf (session Status.in_progress ss) [bench100]))
        = (Raise InternalError, w')
        /\ map r_value (createdRecords (log w')) = [110])
  /\ (forall uniqueIndex, exists w',
        completeWorkout clock noFault uniqueIndex "w1" "u1"
          (initial (storeOf (session Status.in_progress ss) []))
        = (Raise InternalError, w')
        /\ db w' = storeOf (session Status.in_progress ss) []
        /\ records (db w') = []).
Proof.
  intros ss. split; [|split].
  - intros uniqueIndex. destruct uniqueIndex; eexists;
      (split; [vm_compute; reflexivity|]); split; reflexivity.
  - eexists. split; [vm_compute; reflexivity | reflexivity].
  - intros uniqueIndex. destruct uniqueIndex; eexists;
      (split; [vm_compute; reflexivity|]); split; reflexivity.
Qed.

(** C7 at failing inputs. [updateExerciseInWorkout] replaces the sets of
    a session that is completed, and of one that is aborted: the status
    stays and the sets 100 × 5 become 1 × 1 in the database. Its sibling
    [addExerciseToWorkout] checks for a session in progress and refuses
    both. *)
Theorem terminal_sessions_are_mutated :
  Forall
    (fun st =>
       (exists workout' w',
           updateExerciseInWorkout noFault "w1" "u1" "e1"
             (mkWorkoutSetPatch None (Some [lift 1 1]))
             (initial (storeOf (session st [lift 100 5]) []))
           = (Ret workout', w')
           /\ map sets (exercises (session st [lift 100 5])) = [[lift 100 5]]
           /\ status workout' = st
           /\ map sets (exercises workout') = [[lift 1 1]]
           /\ workouts (db w') = [workout'])
       /\ (exists w',
             addExerciseToWorkout noFault sampleIds "w1" "u1"
               (mkWorkoutSetPatch (Some "bench") (Some [lift 1 1]))
               (initial (storeOf (session st [lift 100 5]) []))
             = (Raise (AppError "Cannot add exercises to a completed workout"
                         400), w')
             /\ db w' = storeOf (session st [lift 100 5]) []))
    [Status.completed; Status.aborted].
Proof.
  repeat constructor.
  - eexists _, _. split; [vm_compute; reflexivity|]. repeat split.
  - eexists. split; [vm_compute; reflexivity | reflexivity].
  - eexists _, _. split; [vm_compute; reflexivity|]. repeat split.
  - eexists. split; [vm_compute; reflexivity | reflexivity].
Qed.


(** C10 fails on the code. No volume record is stored; the session has
    the completed sets 60 × 5 and 50 × 5. The second set has reps other
    than 1 and the user has no stored volume record, yet it is no
    personal record: the only record the engine hands [Record.create] is
    the one of the first set, of value 300. And nothing persists: the
    call ends in "Error completing workout" and the record collection
    stays empty. *)
Lemma later_smaller_set_is_no_record :
  exists w',
    completeWorkout sampleClock noFault true "w1" "u1"
      (initial (storeOf (session Status.in_progress [lift 60 5; lift 50 5]) []))
    = (Raise InternalError, w')
    /\ map r_value (createdRecords (log w')) = [300]
    /\ records (db w') = [].
Proof.
  eexists. split; [vm_compute; reflexivity|]. split; reflexivity.
Qed.

(** ** The theorems at concrete inputs *)

(** The detector reports a record for the single 100 × 1, the record is
    written in the transaction, and the progress model refuses the
    document of the exercise: nothing of the record is committed. *)
Lemma completeWorkout_atomic_witness :
  let s := storeOf (session Status.in_progress [lift 100 1]) [] in
  exists w',
    txn (initial s) = None
    /\ completeWorkout sampleClock noFault true "w1" "u1" (initial s)
       = (Raise InternalError, w')
    /\ db w' = s /\ txn w' = None
    /\ findWorkout "w1" "u1" (db w') = findWorkout "w1" "u1" s
    /\ records (db w') = records s
    /\ progress (db w') = progress s
    /\ (noFault (List.length (log (initial s))) = false ->
        exists l,
          appended (initial s) w'
            (OpStartSession :: OpStartTransaction :: OpFindWorkout "w1" "u1"
               :: l ++ [OpAbort; OpEndSession])).
Proof.
  intros s. eexists. split; [reflexivity|].
  split; [vm_compute; reflexivity|].
  apply (completeWorkout_atomic sampleClock noFault true "w1" "u1" (initial s)
           InternalError); [reflexivity | vm_compute; reflexivity].
Defined.

Lemma completeWorkout_idempotent_witness :
  let wk := session Status.completed [lift 100 5] in
  let w := initial (storeOf wk [bench100]) in
  findWorkout "w1" "u1" (db w) = Some wk
  /\ status wk = Status.completed
  /\ exists e w',
       completeWorkout sampleClock noFault true "w1" "u1" w = (Raise e, w')
       /\ db w' = db w
       /\ List.length (records (db w')) = List.length (records (db w))
       /\ List.length (progress (db w')) = List.length (progress (db w))
       /\ (exists l, appended w w' l
                     /\ forallb (fun op => negb (isWrite op)) l = true)
       /\ (noFault (List.length (log w)) = false ->
           noFault (List.length (log w) + 2)%nat = false ->
           e = AlreadyCompleted).
Proof.
  intros wk w. split; [reflexivity|]. split; [reflexivity|].
  apply (completeWorkout_idempotent sampleClock noFault true "w1" "u1" w wk);
    reflexivity.
Defined.

(** The tie-break of the spec: against the stored 100 kg, 100 × 1 is no
    record and 101 × 1 is one; against the stored volume 100, 50 × 10 is
    a record, 10 × 10 is none and 100 × 2, whose weight alone ties, is
    one. *)
Example tie_is_not_a_record :
  fst (isPersonalRecord_ noFault "u1" "bench" 100 1
         (initial (storeOf (session Status.in_progress [lift 100 1]) [bench100])))
  = Ret false.
Proof. reflexivity. Qed.

Example one_more_is_a_record :
  fst (isPersonalRecord_ noFault "u1" "bench" 101 1
         (initial (storeOf (session Status.in_progress [lift 101 1]) [bench100])))
  = Ret true.
Proof. reflexivity. Qed.

Example volume_is_weight_times_reps :
  let w := initial (storeOf (session Status.in_progress []) [benchVolume100]) in
  fst (isPersonalRecord_ noFault "u1" "bench" 50 10 w) = Ret true
  /\ fst (isPersonalRecord_ noFault "u1" "bench" 10 10 w) = Ret false
  /\ fst (isPersonalRecord_ noFault "u1" "bench" 100 2 w) = Ret true.
Proof. repeat split. Qed.

(** 50 × 10 against the stored records of u1 on the bench press, the
    weight 100 and the volume 100, and a volume record of another user. *)
Lemma isPersonalRecord_rule_witness :
  let other := mkRecord "u2" "bench" RecordType.volume 900 0 "w0" None in
  let w := initial (storeOf (session Status.in_progress [lift 50 10])
                      [bench100; benchVolume100; other]) in
  let stored := storedFor (records (view w)) "u1" "bench" in
  exists b w',
    isPersonalRecord_ noFault "u1" "bench" 50 10 w = (Ret b, w')
    /\ db w' = db w /\ txn w' = txn w
    /\ (10 = 1 ->
        (b = true <->
         forall r, stored RecordType.weight r -> r_value r < 50)
        /\ ((forall r, ~ stored RecordType.weight r) -> b = true)
        /\ (forall r, stored RecordType.weight r -> r_value r = 50 ->
                      b = false))
    /\ (10 <> 1 ->
        (b = true <->
         forall r, stored RecordType.volume r -> r_value r < 50 * 10)
        /\ ((forall r, ~ stored RecordType.volume r) -> b = true)
        /\ (forall r, stored RecordType.volume r -> r_value r = 50 * 10 ->
                      b = false)).
Proof.
  intros other w stored.
  apply (isPersonalRecord_rule noFault "u1" "bench" 50 10 w).
  - reflexivity.
  - unfold safeInteger. lia.
  - unfold safeInteger. lia.
  - unfold safeInteger. lia.
  - intros r [<- | [<- | [<- | []]]]; unfold safeInteger; cbn; lia.
Defined.


(** A completed set of 60 kg for 0 reps, reached in the transaction of
    session w1 with no record stored: the set is flagged and a volume
    record of value 0 is written in the transaction. *)
Lemma completion_first_volume_record_witness :
  let set := mkSet 60 0 None true false in
  let s := storeOf (session Status.in_progress [set]) [] in
  let w := mkWorld s (Some s) 1
             [OpStartSession; OpStartTransaction; OpFindWorkout "w1" "u1"] in
  let record := mkRecord "u1" "bench" RecordType.volume 0
                  (sampleClock 1%nat) "w1" None in
  exists set' w',
    processSet sampleClock noFault true "u1" "w1" (Some "bench") (0, 0, 0)
      set w
    = (Ret (set', (0, 0, 1)), w')
    /\ isPersonalRecord set' = true
    /\ weight set' = 60 /\ reps set' = 0
    /\ completed set' = true
    /\ records (view w') = [record]
    /\ records (db w') = [].
Proof.
  intros set s w record.
  destruct (completion_first_volume_record sampleClock noFault true
              "u1" "w1" "bench" 0 0 0 set w s)
    as (set' & w' & Hrun & Hflag & Hw & Hr & Hc & Htx & Hdb & _);
    try reflexivity; try discriminate.
  - intros r [[] _].
  - exists set', w'. split; [exact Hrun|].
    split; [exact Hflag|]. split; [exact Hw|]. split; [exact Hr|].
    split; [exact Hc|]. split.
    + unfold view. rewrite Htx. reflexivity.
    + rewrite Hdb. reflexivity.
Defined.

(** A completed set of -5 kg for 3 reps, reached with no record stored:
    a volume record of value -15 is written in the transaction. *)
Example negative_weight_record :
  let set := mkSet (-5) 3 None true false in
  let s := storeOf (session Status.in_progress [set]) [] in
  let w := mkWorld s (Some s) 1
             [OpStartSession; OpStartTransaction; OpFindWorkout "w1" "u1"] in
  option_map (fun s' => map r_value (records s'))
    (txn (snd (processSet sampleClock noFault true "u1" "w1" (Some "bench")
                 (0, 0, 0) set w)))
  = Some [-15].
Proof. reflexivity. Qed.

(** * Further properties of the service *)

(** ** What [completeWorkout] sends to the progress collection *)

Section ProgressRequests.

Variable clock : nat -> Z.
Variable fault : nat -> bool.
Variable uniqueIndex : bool.

(** X1. Every document that [completeWorkout] sends to [Progress.create]
    has the type "exercise" or "performance", and neither is a value of
    the [enum] that the schema of the progress model puts on [type]; a
    call that returns has sent such documents. *)
Theorem completeWorkout_progress_types id userId w r w' :
  completeWorkout clock fault uniqueIndex id userId w = (r, w') ->
  exists l,
    appended w w' l
    /\ (forall ps p,
          In (OpCreateProgress ps) l -> In p ps ->
          (p_type p = "exercise" \/ p_type p = "performance")
          /\ isProgressMetricType (p_type p) = false)
    /\ (forall workout', r = Ret workout' ->
          exists ps, In (OpCreateProgress ps) l /\ List.length ps = 2%nat).
Proof.
  intros H.
  destruct (emits_completeWorkout clock fault uniqueIndex id userId _ _ _ H)
    as (l & Hl & HP).
  exists l. split; [exact Hl|]. split.
  - intros ps p Hps Hp. rewrite Forall_forall in HP.
    destruct (HP _ Hps) as [HP' _]. cbn in HP'. rewrite Forall_forall in HP'.
    specialize (HP' _ Hp). split; [exact HP'|].
    destruct HP' as [-> | ->]; reflexivity.
  - intros workout' ->. elim (completeWorkout_rejected _ _ _ _ _ _ _ _ H).
Qed.

End ProgressRequests.


(** ** Invariants of the data *)

Lemma stays_ret {A} I (a : A) : stays I (ret a).
Proof. intros w H. exact H. Qed.

Lemma stays_throw {A} I e : stays I (@throw A e).
Proof. intros w H. exact H. Qed.

Lemma stays_bind {A B} I (m : M A) (k : A -> M B) :
  stays I m -> (forall a, stays I (k a)) -> stays I (bind m k).
Proof.
  intros Hm Hk w H. specialize (Hm w H). unfold bind.
  destruct (m w) as [[a|e] w1]; cbn in *; [apply Hk|]; exact Hm.
Qed.

Lemma stays_tryCatch {A} I (body : M A) handler :
  stays I body -> (forall e, stays I (handler e)) ->
  stays I (tryCatch body handler).
Proof.
  intros Hb Hh w H. specialize (Hb w H). unfold tryCatch.
  destruct (body w) as [[a|e] w1]; cbn in *; [|apply Hh]; exact Hb.
Qed.

(** A step that leaves the data alone keeps everything. *)
Lemma stays_reading {A} I (m : M A) :
  (forall w, db (snd (m w)) = db w /\ txn (snd (m w)) = txn w) -> stays I m.
Proof. intros Hm w H. destruct (Hm w) as [-> ->]. exact H. Qed.

Lemma stays_request I fault op : stays I (request fault op).
Proof.
  apply stays_reading. intros w. unfold request.
  destruct (fault _); split; reflexivity.
Qed.

Lemma stays_writeStore I f : stable I f -> stays I (writeStore f).
Proof.
  intros [Hin Hout] w H. unfold writeStore.
  destruct (txn w) as [s|] eqn:Htx; cbn; [apply Hin | apply Hout]; exact H.
Qed.

Lemma stays_run {A} I (m : M A) w r w' :
  stays I m -> I (db w) (txn w) -> m w = (r, w') -> I (db w') (txn w').
Proof. intros Hm Hw H. specialize (Hm w Hw). rewrite H in Hm. exact Hm. Qed.

Lemma stable_outTx K f : (forall s, K s -> K (f s)) -> stable (outTx K) f.
Proof.
  intros Hf. split.
  - intros d s [Hs _]. discriminate Hs.
  - intros d [_ HK]. split; [reflexivity | apply Hf, HK].
Qed.

(** *** Replacing, removing and looking up workouts *)

Lemma replaceWorkout_ids wk ws :
  map _id (replaceWorkout wk ws) = map _id ws.
Proof.
  induction ws as [|x rest IH]; cbn; [reflexivity|].
  destruct (String.eqb (_id x) (_id wk)) eqn:E; cbn.
  - apply String.eqb_eq in E. rewrite E. reflexivity.
  - rewrite IH. reflexivity.
Qed.

Lemma sameElsewhere_refl id ws : sameElsewhere id ws ws.
Proof. induction ws; constructor; auto. Qed.

Lemma sameElsewhere_replace id ws0 ws wk :
  sameElsewhere id ws0 ws -> _id wk = id ->
  sameElsewhere id ws0 (replaceWorkout wk ws).
Proof.
  intros H Hid. induction H as [|a b ws0 ws [Hab Hother] Hrest IH]; cbn.
  - constructor.
  - destruct (String.eqb (_id b) (_id wk)) eqn:E.
    + apply String.eqb_eq in E. constructor; [|exact Hrest]. split.
      * congruence.
      * intros Hne. elim Hne. congruence.
    + constructor; [split; assumption | exact IH].
Qed.

Lemma sameElsewhere_ids id ws ws' :
  sameElsewhere id ws ws' -> map _id ws' = map _id ws.
Proof.
  intros H. induction H as [|a b ws ws' [Hab _] _ IH]; cbn; [reflexivity|].
  rewrite IH, Hab. reflexivity.
Qed.

Lemma sameElsewhere_find id ws ws' id' userId :
  sameElsewhere id ws ws' -> id' <> id ->
  find (fun w => String.eqb (_id w) id' && String.eqb (user w) userId) ws'
  = find (fun w => String.eqb (_id w) id' && String.eqb (user w) userId) ws.
Proof.
  intros H Hne. induction H as [|a b ws ws' [Hab Hother] _ IH]; cbn;
    [reflexivity|].
  destruct (String.eqb (_id a) id) eqn:E.
  - apply String.eqb_eq in E.
    assert (Ha : String.eqb (_id a) id' = false)
      by (apply String.eqb_neq; congruence).
    assert (Hb : String.eqb (_id b) id' = false)
      by (apply String.eqb_neq; congruence).
    rewrite Ha, Hb. cbn. exact IH.
  - apply String.eqb_neq in E. rewrite <- (Hother E).
    destruct (_ && _); [reflexivity | exact IH].
Qed.

Lemma findWorkout_id id userId s wk :
  findWorkout id userId s = Some wk -> _id wk = id /\ user wk = userId.
Proof.
  unfold findWorkout. intros H. apply find_some in H as [_ H].
  apply andb_prop in H as [H1 H2].
  split; apply String.eqb_eq; assumption.
Qed.

Lemma touched_refl userId id s : touched userId id s s.
Proof.
  split; [reflexivity|]. split; [apply sameElsewhere_refl|].
  split; exists []; (split; [symmetry; apply app_nil_r | constructor]).
Qed.

(** ** What a completion leaves untouched *)

Section Footprint.

Variable clock : nat -> Z.
Variable fault : nat -> bool.
Variable uniqueIndex : bool.

(** A call never changes the committed data. *)
Lemma completeWorkout_Raise_db id userId w e w' :
  completeWorkout clock fault uniqueIndex id userId w = (Raise e, w') ->
  db w' = db w.
Proof.
  intros H. destruct (fault (List.length (log w))) eqn:F0.
  { rewrite (completeWorkout_not_started _ _ _ _ _ _ F0) in H.
    inversion H; subst. reflexivity. }
  rewrite (completeWorkout_started _ _ _ _ _ _ F0) in H.
  unfold tryCatchFinally in H.
  destruct (completeWorkoutBody _ _ _ _ _ _) as [[a|e0] w3] eqn:Hbody.
  { cbn in H. discriminate H. }
  assert (Hw3 : db w3 = db w).
  { refine (atomic_completeWorkoutBody _ _ _ id userId (db w) _ e0 w3 _ Hbody).
    split; [reflexivity|]. exists (db w). split; [reflexivity | exact I]. }
  rewrite completeWorkoutCatch_run in H. unfold endSession, note in H.
  inversion H; subst. exact Hw3.
Qed.

(** X2. Whatever its outcome, [completeWorkout] on the workout [id] leaves
    the exercise collection as it is, every other workout as it is and in
    place, and every record and progress entry that was there; what it
    adds are records and progress entries of that user and that workout,
    the records without previous snapshot and the progress entries with
    the source "workout". Lookups of other workouts answer as before and
    the [_id]s stay unique. *)
Theorem completeWorkout_footprint id userId w r w' :
  completeWorkout clock fault uniqueIndex id userId w = (r, w') ->
  touched userId id (db w) (db w')
  /\ (forall id' userId', id' <> id ->
        findWorkout id' userId' (db w') = findWorkout id' userId' (db w))
  /\ (uniqueIds (db w) -> uniqueIds (db w')).
Proof.
  intros H.
  assert (Ht : touched userId id (db w) (db w')).
  { destruct r as [workout'|e].
    - elim (completeWorkout_rejected _ _ _ _ _ _ _ _ H).
    - rewrite (completeWorkout_Raise_db _ _ _ _ _ H). apply touched_refl. }
  split; [exact Ht|]. destruct Ht as (_ & Hw & _). split.
  - intros id' userId' Hne. unfold findWorkout.
    apply (sameElsewhere_find _ _ _ _ _ Hw Hne).
  - unfold uniqueIds. rewrite (sameElsewhere_ids _ _ _ Hw). auto.
Qed.

End Footprint.

(** ** Sessions that cannot be completed *)

Section Refusals.

Variable clock : nat -> Z.
Variable fault : nat -> bool.
Variable uniqueIndex : bool.

(** X3. A session that does not exist, or that belongs to another user,
    is not found: the call throws, sends no write and leaves the database
    as it is; when the store answers, the error is "Workout not found"
    with the code 404, the same in both cases. *)
Theorem completeWorkout_not_owned id userId w :
  findWorkout id userId (db w) = None ->
  exists e w',
    completeWorkout clock fault uniqueIndex id userId w = (Raise e, w')
    /\ db w' = db w
    /\ (exists l, appended w w' l
                  /\ forallb (fun op => negb (isWrite op)) l = true)
    /\ (fault (List.length (log w)) = false ->
        fault (List.length (log w) + 2)%nat = false ->
        e = NotFound).
Proof.
  intros Hfind. unfold appended.
  destruct (fault (List.length (log w))) eqn:F0.
  { rewrite (completeWorkout_not_started _ _ _ _ _ _ F0).
    eexists _, _. split; [reflexivity|]. cbn.
    split; [reflexivity|]. split.
    - exists [OpStartSession]. split; reflexivity.
    - intros; discriminate. }
  rewrite (completeWorkout_started _ _ _ _ _ _ F0).
  unfold tryCatchFinally. rewrite completeWorkoutBody_load.
  cbn [view db txn ticks log]. rewrite Hfind.
  rewrite length_app. cbn [List.length].
  assert (Hc : commitCalled ((log w ++ [OpStartSession; OpStartTransaction])
                               ++ [OpFindWorkout id userId]) = false).
  { apply commitCalled_started. repeat constructor. discriminate. }
  destruct (fault (List.length (log w) + 2)%nat) eqn:F2;
    rewrite completeWorkoutCatch_run; cbn [log]; rewrite Hc; cbn;
    (eexists _, _; split; [reflexivity|]; cbn;
     split; [reflexivity|]; split;
     [ exists [OpStartSession; OpStartTransaction;
               OpFindWorkout id userId; OpAbort; OpEndSession];
       split; [rewrite <- !app_assoc|]; reflexivity
     | intros; solve [discriminate | reflexivity] ]).
Qed.

(** Once the session of a workout that is there and not completed has
    started, the only error is the one of the [catch] block. *)
Lemma open_workout_error id userId w workout e w' :
  findWorkout id userId (db w) = Some workout ->
  status workout <> Status.completed ->
  fault (List.length (log w)) = false ->
  completeWorkout clock fault uniqueIndex id userId w = (Raise e, w') ->
  e = InternalError.
Proof.
  intros Hfind Hst F0 H.
  destruct (completeWorkout_thrown _ _ _ _ _ _ _ _ F0 H)
    as (e0 & w2 & l & Hbody & _ & _ & Hr & _).
  inversion Hr; subst e. clear Hr.
  rewrite completeWorkoutBody_load in Hbody. cbv zeta in Hbody.
  cbn [view db txn ticks log] in Hbody. rewrite Hfind in Hbody.
  assert (Hnc : Status.eqb (status workout) Status.completed = false).
  { destruct (status workout); try reflexivity. elim Hst. reflexivity. }
  rewrite Hnc in Hbody. clear F0.
  destruct (fault _); [inversion Hbody; subst; reflexivity|].
  apply quiet_finishWorkout in Hbody. rewrite Hbody. reflexivity.
Qed.

(** X4. A session in which one exercise entry points to an exercise that
    is not in the exercise collection cannot be completed: whatever the
    sets are and whether or not they are completed, the call throws and
    the database stays as it is; once the session has started the error
    is "Error completing workout". *)
Theorem completeWorkout_dangling_exercise id userId w workout ex :
  findWorkout id userId (db w) = Some workout ->
  status workout <> Status.completed ->
  In ex (exercises workout) ->
  populate (exerciseIds (db w)) (exercise ex) = None ->
  exists e w',
    completeWorkout clock fault uniqueIndex id userId w = (Raise e, w')
    /\ db w' = db w
    /\ (e = MongoError "request failed" \/ e = InternalError)
    /\ (fault (List.length (log w)) = false -> e = InternalError).
Proof.
  intros Hfind Hst Hin Hpop.
  destruct (completeWorkout clock fault uniqueIndex id userId w)
    as [[workout'|e] w'] eqn:H.
  { elim (completeWorkout_rejected _ _ _ _ _ _ _ _ H). }
  exists e, w'. split; [reflexivity|].
  split; [exact (completeWorkout_Raise_db _ _ _ _ _ _ _ _ H)|].
  destruct (fault (List.length (log w))) eqn:F0.
  - rewrite (completeWorkout_not_started _ _ _ _ _ _ F0) in H.
    inversion H; subst. split; [left; reflexivity | intros; discriminate].
  - pose proof (open_workout_error _ _ _ _ _ _ Hfind Hst F0 H) as He.
    split; [right|intros _]; exact He.
Qed.

End Refusals.

(** ** The errors of the other operations *)

Lemma raisesOnly_ret {A} P (a : A) : raisesOnly P (ret a).
Proof. intros w e w' H. discriminate H. Qed.

Lemma raisesOnly_throw {A} (P : Exn -> Prop) e : P e -> raisesOnly P (@throw A e).
Proof. intros He w e' w' H. inversion H; subst. exact He. Qed.

Lemma raisesOnly_bind {A B} P (m : M A) (k : A -> M B) :
  raisesOnly P m -> (forall a, raisesOnly P (k a)) -> raisesOnly P (bind m k).
Proof.
  intros Hm Hk w e w' H. apply bind_Raise in H as [H | (a & w1 & _ & H)].
  - exact (Hm _ _ _ H).
  - exact (Hk a _ _ _ H).
Qed.

Lemma raisesOnly_quiet {A} (m : M A) : quiet m -> raisesOnly expectedInTry m.
Proof. intros Hm w e w' H. left. exact (Hm _ _ _ H). Qed.

(** [catch (error) { if (error instanceof AppError) throw error;
    throw new AppError(message, 400) }]. *)
Lemma raisesOnly_rethrow {A} (body : M A) message :
  raisesOnly expectedInTry body ->
  raisesOnly clientError
    (tryCatch body
       (fun error => if isAppError error then throw error
                     else throw (AppError message 400))).
Proof.
  intros Hb w e w' H. unfold tryCatch in H.
  destruct (body w) as [[a|e0] w1] eqn:Hbw; [discriminate H|].
  destruct (Hb _ _ _ Hbw) as [Hq | Hc].
  - rewrite Hq in H. inversion H; subst. exists message, 400. auto.
  - destruct Hc as (m & c & -> & Hcode). cbn in H. inversion H; subst.
    exists m, c. auto.
Qed.

Lemma clientError_404 message : expectedInTry (AppError message 404).
Proof. right. exists message, 404. auto. Qed.

Lemma clientError_400 message : expectedInTry (AppError message 400).
Proof. right. exists message, 400. auto. Qed.

Section OtherErrors.

Variable fault : nat -> bool.
Variable newObjectId : nat -> ObjectId.

Create HintDb raises discriminated.

#[local] Hint Resolve raisesOnly_ret : raises.
#[local] Hint Extern 1 (raisesOnly _ (throw (AppError _ 404))) =>
  apply raisesOnly_throw; apply clientError_404 : raises.
#[local] Hint Extern 1 (raisesOnly _ (throw (AppError _ 400))) =>
  apply raisesOnly_throw; apply clientError_400 : raises.
#[local] Hint Extern 1 (raisesOnly _ (throw (MongoError _))) =>
  apply raisesOnly_throw; left; reflexivity : raises.
#[local] Hint Extern 1 (raisesOnly _ (request _ _)) =>
  apply raisesOnly_quiet; apply quiet_request : raises.
#[local] Hint Extern 1 (raisesOnly _ readStore) =>
  apply raisesOnly_quiet; apply quiet_readStore : raises.
#[local] Hint Extern 1 (raisesOnly _ (writeStore _)) =>
  apply raisesOnly_quiet; apply quiet_writeStore : raises.
#[local] Hint Extern 1 (raisesOnly _ (Workout_save _ _)) =>
  apply raisesOnly_quiet; apply quiet_Workout_save : raises.
#[local] Hint Extern 3 (raisesOnly _ (fun _ => (Ret _, _))) =>
  intros ? ? ? ?; discriminate : raises.

Ltac raising := walk @raisesOnly_bind ltac:(auto with raises).

Lemma raisesOnly_updateWorkout id userId updateData :
  raisesOnly clientError (updateWorkout fault id userId updateData).
Proof.
  unfold updateWorkout. apply raisesOnly_rethrow.
  unfold Workout_findOneAndUpdate. raising.
Qed.

Lemma raisesOnly_addExerciseToWorkout workoutId userId exerciseData :
  raisesOnly clientError
    (addExerciseToWorkout fault newObjectId workoutId userId exerciseData).
Proof.
  unfold addExerciseToWorkout. apply raisesOnly_rethrow.
  unfold Workout_findOne. raising.
Qed.

Lemma raisesOnly_updateExerciseInWorkout workoutId userId exerciseId updateData :
  raisesOnly clientError
    (updateExerciseInWorkout fault workoutId userId exerciseId updateData).
Proof.
  unfold updateExerciseInWorkout. apply raisesOnly_rethrow.
  unfold Workout_findOne. raising.
Qed.

Lemma raisesOnly_getWorkoutById id userId :
  raisesOnly clientError (getWorkoutById fault id userId).
Proof.
  unfold getWorkoutById. apply raisesOnly_rethrow.
  unfold Workout_findOne_populated. raising.
Qed.

Lemma raisesOnly_deleteWorkout id userId :
  raisesOnly clientError (deleteWorkout fault id userId).
Proof.
  unfold deleteWorkout. apply raisesOnly_rethrow.
  unfold Workout_findOneAndDelete. raising.
Qed.

Lemma raisesOnly_createWorkout workoutData :
  raisesOnly (fun e => e = AppError "Error creating workout" 400)
    (createWorkout fault newObjectId workoutData).
Proof.
  intros w e w' H. unfold createWorkout, tryCatch in H.
  destruct (bind _ _ w) as [[a|e0] w1]; [discriminate H|].
  inversion H; subst. reflexivity.
Qed.

End OtherErrors.

(** X5. Every error thrown by [updateWorkout], [addExerciseToWorkout],
    [updateExerciseInWorkout], [getWorkoutById] and [deleteWorkout] is an
    AppError with the code 400 or 404, also when the store fails;
    [createWorkout] and [getUserWorkouts] throw one error only, with the
    code 400. [completeWorkout] is the exception: when [startSession]
    rejects, the error of the driver leaves the service as it is. *)
Theorem service_errors :
  (forall fault id userId updateData w e w',
      updateWorkout fault id userId updateData w = (Raise e, w') ->
      clientError e)
  /\ (forall fault ids id userId exerciseData w e w',
        addExerciseToWorkout fault ids id userId exerciseData w = (Raise e, w') ->
        clientError e)
  /\ (forall fault id userId exerciseId updateData w e w',
        updateExerciseInWorkout fault id userId exerciseId updateData w
        = (Raise e, w') ->
        clientError e)
  /\ (forall fault id userId w e w',
        getWorkoutById fault id userId w = (Raise e, w') -> clientError e)
  /\ (forall fault id userId w e w',
        deleteWorkout fault id userId w = (Raise e, w') -> clientError e)
  /\ (forall fault ids workoutData w e w',
        createWorkout fault ids workoutData w = (Raise e, w') ->
        e = AppError "Error creating workout" 400)
  /\ (forall ties findFails countFails userId options s e,
        getUserWorkouts ties findFails countFails userId options s = Raise e ->
        e = AppError "Error fetching workouts" 400)
  /\ (forall clock fault uniqueIndex id userId w,
        fault (List.length (log w)) = true ->
        exists w',
          completeWorkout clock fault uniqueIndex id userId w
          = (Raise (MongoError "request failed"), w')
          /\ ~ clientError (MongoError "request failed")).
Proof.
  repeat split.
  - intros. eapply raisesOnly_updateWorkout; eassumption.
  - intros. eapply raisesOnly_addExerciseToWorkout; eassumption.
  - intros. eapply raisesOnly_updateExerciseInWorkout; eassumption.
  - intros. eapply raisesOnly_getWorkoutById; eassumption.
  - intros. eapply raisesOnly_deleteWorkout; eassumption.
  - intros. eapply raisesOnly_createWorkout; eassumption.
  - intros ties findFails countFails userId options s e H.
    unfold getUserWorkouts in H.
    destruct (_ || _); inversion H. reflexivity.
  - intros clock fault uniqueIndex id userId w F0. eexists.
    split; [apply (completeWorkout_not_started _ _ _ _ _ _ F0)|].
    intros (m & c & H & _). discriminate H.
Qed.

(** ** Workouts of other users *)

Section Ownership.

Variable fault : nat -> bool.
Variable newObjectId : nat -> ObjectId.

Ltac not_found Htx Hfind F :=
  unfold tryCatch, bind; rewrite request_run, F; unfold readStore, view;
  cbn [txn db]; rewrite Htx, Hfind; cbn;
  eexists; split; reflexivity.

(** X6. A workout that does not exist, or that belongs to another user,
    is out of reach of every operation that takes an id: when the store
    answers, [updateWorkout], [addExerciseToWorkout],
    [updateExerciseInWorkout], [getWorkoutById] and [deleteWorkout] throw
    "Workout not found" with the code 404 and leave the database as it
    is. *)
Theorem foreign_workout_not_found id userId w :
  txn w = None ->
  findWorkout id userId (db w) = None ->
  fault (List.length (log w)) = false ->
  (forall updateData, exists w',
      updateWorkout fault id userId updateData w = (Raise NotFound, w')
      /\ db w' = db w)
  /\ (forall exerciseData, exists w',
        addExerciseToWorkout fault newObjectId id userId exerciseData w
        = (Raise NotFound, w')
        /\ db w' = db w)
  /\ (forall exerciseId updateData, exists w',
        updateExerciseInWorkout fault id userId exerciseId updateData w
        = (Raise NotFound, w')
        /\ db w' = db w)
  /\ (exists w',
        getWorkoutById fault id userId w = (Raise NotFound, w')
        /\ db w' = db w)
  /\ (exists w',
        deleteWorkout fault id userId w = (Raise NotFound, w')
        /\ db w' = db w).
Proof.
  intros Htx Hfind F. repeat split.
  - intros updateData. unfold updateWorkout, Workout_findOneAndUpdate.
    not_found Htx Hfind F.
  - intros exerciseData. unfold addExerciseToWorkout, Workout_findOne.
    not_found Htx Hfind F.
  - intros exerciseId updateData.
    unfold updateExerciseInWorkout, Workout_findOne. not_found Htx Hfind F.
  - unfold getWorkoutById, Workout_findOne_populated. not_found Htx Hfind F.
  - unfold deleteWorkout, Workout_findOneAndDelete. not_found Htx Hfind F.
Qed.

End Ownership.

(** ** Lookups after a replacement, a removal and an insertion *)

Lemma find_in_ids id userId ws wk :
  find (fun w => String.eqb (_id w) id && String.eqb (user w) userId) ws
  = Some wk ->
  In id (map _id ws).
Proof.
  intros H. apply find_some in H as [Hin H]. apply andb_prop in H as [H _].
  apply String.eqb_eq in H. rewrite <- H. apply in_map. exact Hin.
Qed.

Lemma find_replaced id userId ws wk wk' :
  find (fun w => String.eqb (_id w) id && String.eqb (user w) userId) ws
  = Some wk ->
  _id wk' = id -> user wk' = userId ->
  find (fun w => String.eqb (_id w) id && String.eqb (user w) userId)
       (replaceWorkout wk' ws)
  = Some wk'.
Proof.
  intros Hfind Hid Hu. subst id userId.
  induction ws as [|x rest IH]; cbn in *; [discriminate|].
  destruct (String.eqb (_id x) (_id wk')) eqn:E; cbn.
  - rewrite !String.eqb_refl. reflexivity.
  - rewrite E. cbn. exact (IH Hfind).
Qed.

Lemma find_removed id userId ws wk :
  NoDup (map _id ws) ->
  find (fun w => String.eqb (_id w) id && String.eqb (user w) userId) ws
  = Some wk ->
  find (fun w => String.eqb (_id w) id && String.eqb (user w) userId)
       (removeWorkout id userId ws)
  = None.
Proof.
  intros Hnd Hfind. induction ws as [|x rest IH]; cbn in *; [discriminate|].
  inversion Hnd as [|? ? Hnotin Hnd']; subst.
  destruct (String.eqb (_id x) id && String.eqb (user x) userId) eqn:E.
  - apply andb_prop in E as [E _]. apply String.eqb_eq in E.
    destruct (find _ rest) as [y|] eqn:Hy; [|reflexivity].
    apply find_in_ids in Hy. elim Hnotin. rewrite E. exact Hy.
  - cbn. rewrite E. exact (IH Hnd' Hfind).
Qed.

Lemma find_other_removed id userId ws id' userId' :
  id' <> id ->
  find (fun w => String.eqb (_id w) id' && String.eqb (user w) userId')
       (removeWorkout id userId ws)
  = find (fun w => String.eqb (_id w) id' && String.eqb (user w) userId') ws.
Proof.
  intros Hne. induction ws as [|x rest IH]; cbn; [reflexivity|].
  destruct (String.eqb (_id x) id && String.eqb (user x) userId) eqn:E.
  - apply andb_prop in E as [E _]. apply String.eqb_eq in E.
    assert (Hx : String.eqb (_id x) id' = false)
      by (apply String.eqb_neq; congruence).
    rewrite Hx. reflexivity.
  - cbn. rewrite IH. reflexivity.
Qed.

Lemma removeWorkout_length id userId ws wk :
  find (fun w => String.eqb (_id w) id && String.eqb (user w) userId) ws
  = Some wk ->
  S (List.length (removeWorkout id userId ws)) = List.length ws.
Proof.
  intros Hfind. induction ws as [|x rest IH]; cbn in *; [discriminate|].
  destruct (String.eqb (_id x) id && String.eqb (user x) userId);
    [reflexivity|]. cbn. rewrite (IH Hfind). reflexivity.
Qed.

Lemma removeWorkout_ids id userId ws x :
  In x (map _id (removeWorkout id userId ws)) -> In x (map _id ws).
Proof.
  induction ws as [|y rest IH]; cbn; [auto|].
  destruct (String.eqb (_id y) id && String.eqb (user y) userId); cbn.
  - auto.
  - intros [H|H]; [left; exact H | right; exact (IH H)].
Qed.

Lemma removeWorkout_unique id userId ws :
  NoDup (map _id ws) -> NoDup (map _id (removeWorkout id userId ws)).
Proof.
  induction ws as [|y rest IH]; cbn; [auto|]. intros Hnd.
  inversion Hnd as [|? ? Hnotin Hnd']; subst.
  destruct (String.eqb (_id y) id && String.eqb (user y) userId); cbn;
    [exact Hnd'|].
  constructor; [|exact (IH Hnd')].
  intros Hin. apply Hnotin. exact (removeWorkout_ids _ _ _ _ Hin).
Qed.

Lemma find_appended id userId ws wk :
  existsb (fun x => String.eqb (_id x) (_id wk)) ws = false ->
  _id wk = id -> user wk = userId ->
  find (fun w => String.eqb (_id w) id && String.eqb (user w) userId)
       (ws ++ [wk])
  = Some wk.
Proof.
  intros Hfresh Hid Hu. induction ws as [|x rest IH]; cbn in *.
  - rewrite Hid, Hu, !String.eqb_refl. reflexivity.
  - apply orb_false_elim in Hfresh as [Hx Hrest].
    rewrite <- Hid. rewrite Hx. cbn. rewrite Hid. exact (IH Hrest).
Qed.

Lemma find_other_appended id' userId' ws wk :
  _id wk <> id' ->
  find (fun w => String.eqb (_id w) id' && String.eqb (user w) userId')
       (ws ++ [wk])
  = find (fun w => String.eqb (_id w) id' && String.eqb (user w) userId') ws.
Proof.
  intros Hne. induction ws as [|x rest IH]; cbn.
  - apply String.eqb_neq in Hne. rewrite Hne. reflexivity.
  - rewrite IH. reflexivity.
Qed.

Lemma appended_unique ws wk :
  NoDup (map _id ws) ->
  existsb (fun x => String.eqb (_id x) (_id wk)) ws = false ->
  NoDup (map _id (ws ++ [wk])).
Proof.
  intros Hnd Hfresh. rewrite map_app. cbn.
  apply NoDup_app; [exact Hnd | repeat constructor; intros [] |].
  intros a Ha [<- | []]. apply in_map_iff in Ha as (x & Hx & Hin).
  assert (Hex : existsb (fun x => String.eqb (_id x) (_id wk)) ws = true).
  { apply existsb_exists. exists x. split; [exact Hin|].
    apply String.eqb_eq. exact Hx. }
  rewrite Hex in Hfresh. discriminate Hfresh.
Qed.

(** ** What the operations on one workout do *)

Section Operations.

Variable fault : nat -> bool.
Variable newObjectId : nat -> ObjectId.

Lemma Workout_findOne_run id userId w :
  fault (List.length (log w)) = false ->
  Workout_findOne fault id userId w
  = (Ret (findWorkout id userId (view w)),
     mkWorld (db w) (txn w) (ticks w) (log w ++ [OpFindWorkout id userId])).
Proof.
  intros F. unfold Workout_findOne. unfold bind at 1. rewrite request_run, F.
  reflexivity.
Qed.

Lemma found_exists id userId s wk wk' :
  findWorkout id userId s = Some wk -> _id wk' = id ->
  existsb (fun x => String.eqb (_id x) (_id wk')) (workouts s) = true.
Proof.
  intros Hfind Hid. apply existsb_exists. exists wk.
  apply findWorkout_id in Hfind as Hwk. unfold findWorkout in Hfind.
  apply find_some in Hfind as [Hin _]. split; [exact Hin|].
  apply String.eqb_eq. destruct Hwk. congruence.
Qed.

(** A save outside a transaction, of a document that is in the
    collection. *)
Lemma Workout_save_run wk w :
  fault (List.length (log w)) = false ->
  txn w = None ->
  existsb (fun x => String.eqb (_id x) (_id wk)) (workouts (db w)) = true ->
  Workout_save fault wk w
  = (Ret tt,
     mkWorld (mkStore (replaceWorkout wk (workouts (db w))) (exerciseIds (db w))
                (records (db w)) (progress (db w)))
       None (ticks w) (log w ++ [OpSaveWorkout wk])).
Proof.
  intros F Htx Hex. unfold Workout_save. unfold bind at 1.
  rewrite request_run, F. unfold bind, readStore, view. cbn [txn db].
  rewrite Htx, Hex. reflexivity.
Qed.

(** X7. [addExerciseToWorkout] on a workout in progress of the caller,
    with the store answering: without [exercise] in the data the call
    throws "Error adding exercise to workout" (400) and nothing changes;
    with it, the new entry goes to the end of the exercises, with the
    given sets or none, the entries that were there keep their place and
    content, the owner finds the returned workout under its id, and no
    other workout, record or progress entry changes. Whether the exercise
    exists is not checked. *)
Theorem addExerciseToWorkout_appends id userId exerciseData w workout :
  txn w = None ->
  findWorkout id userId (db w) = Some workout ->
  status workout = Status.in_progress ->
  fault (List.length (log w)) = false ->
  fault (List.length (log w) + 1)%nat = false ->
  match u_exercise exerciseData with
  | None =>
      exists w',
        addExerciseToWorkout fault newObjectId id userId exerciseData w
        = (Raise (AppError "Error adding exercise to workout" 400), w')
        /\ db w' = db w
  | Some ex =>
      exists workout' w' entry,
        addExerciseToWorkout fault newObjectId id userId exerciseData w
        = (Ret workout', w')
        /\ exercises workout' = exercises workout ++ [entry]
        /\ exercise entry = ex
        /\ sets entry = patched (u_sets exerciseData) []
        /\ status workout' = Status.in_progress
        /\ findWorkout id userId (db w') = Some workout'
        /\ sameElsewhere id (workouts (db w)) (workouts (db w'))
        /\ exerciseIds (db w') = exerciseIds (db w)
        /\ records (db w') = records (db w)
        /\ progress (db w') = progress (db w)
  end.
Proof.
  intros Htx Hfind Hst F0 F1.
  destruct (u_exercise exerciseData) as [ex|] eqn:Hex;
    unfold addExerciseToWorkout, tryCatch; unfold bind at 1;
    rewrite (Workout_findOne_run _ _ _ F0); unfold view;
    rewrite Htx, Hfind, Hst, Hex; cbn [Status.eqb negb].
  2:{ cbn. eexists. split; reflexivity. }
  unfold bind at 1. cbn [log db txn ticks].
  set (entry := mkWorkoutSet _ ex _).
  set (workout' := withExercises (exercises workout ++ [entry]) workout).
  apply findWorkout_id in Hfind as Hwk. destruct Hwk as [Hid Hu].
  unfold bind.
  rewrite Workout_save_run;
    [ | cbn [log]; rewrite length_app; exact F1 | reflexivity
      | cbn [db]; exact (found_exists _ _ _ _ workout' Hfind Hid) ].
  eexists workout', _, entry. split; [reflexivity|]. cbn [db workouts].
  split; [reflexivity|]. split; [reflexivity|]. split; [reflexivity|].
  split; [exact Hst|]. split.
  - unfold findWorkout. cbn [workouts].
    exact (find_replaced _ _ _ _ workout' Hfind Hid Hu).
  - split; [|repeat split].
    apply sameElsewhere_replace; [apply sameElsewhere_refl | exact Hid].
Qed.

Lemma assignAt_none exerciseId p es :
  (forall e, In e es -> entry_id e <> exerciseId) ->
  assignAt exerciseId p es = None.
Proof.
  induction es as [|x rest IH]; intros H; cbn; [reflexivity|].
  assert (Hx : String.eqb (entry_id x) exerciseId = false).
  { apply String.eqb_neq. apply H. left. reflexivity. }
  rewrite Hx, IH; [reflexivity|]. intros e He. apply H. right. exact He.
Qed.

Lemma assignAt_first exerciseId p pre e post :
  (forall x, In x pre -> entry_id x <> exerciseId) ->
  entry_id e = exerciseId ->
  assignAt exerciseId p (pre ++ e :: post)
  = Some (pre ++ assignEntry e p :: post).
Proof.
  intros Hpre He. induction pre as [|x rest IH]; cbn.
  - rewrite He, String.eqb_refl. reflexivity.
  - assert (Hx : String.eqb (entry_id x) exerciseId = false).
    { apply String.eqb_neq. apply Hpre. left. reflexivity. }
    rewrite Hx, IH; [reflexivity|]. intros y Hy. apply Hpre. right. exact Hy.
Qed.

(** X8. [updateExerciseInWorkout] on a workout of the caller, with the
    store answering and whatever the status of the workout. When no entry
    has the given id the call throws "Exercise not found in workout" (404)
    and nothing changes. Otherwise the first entry with that id takes the
    fields of the data and keeps its [_id] and its place, the other
    entries stay as they are, and the status, the other workouts, the
    records and the progress entries are untouched. *)
Theorem updateExerciseInWorkout_effect id userId exerciseId updateData w workout :
  txn w = None ->
  findWorkout id userId (db w) = Some workout ->
  fault (List.length (log w)) = false ->
  fault (List.length (log w) + 1)%nat = false ->
  ((forall e, In e (exercises workout) -> entry_id e <> exerciseId) ->
   exists w',
     updateExerciseInWorkout fault id userId exerciseId updateData w
     = (Raise (AppError "Exercise not found in workout" 404), w')
     /\ db w' = db w)
  /\ (forall pre e post,
        exercises workout = pre ++ e :: post ->
        entry_id e = exerciseId ->
        (forall x, In x pre -> entry_id x <> exerciseId) ->
        exists workout' w',
          updateExerciseInWorkout fault id userId exerciseId updateData w
          = (Ret workout', w')
          /\ exercises workout'
             = pre ++ mkWorkoutSet exerciseId
                        (patched (u_exercise updateData) (exercise e))
                        (patched (u_sets updateData) (sets e)) :: post
          /\ status workout' = status workout
          /\ findWorkout id userId (db w') = Some workout'
          /\ sameElsewhere id (workouts (db w)) (workouts (db w'))
          /\ exerciseIds (db w') = exerciseIds (db w)
          /\ records (db w') = records (db w)
          /\ progress (db w') = progress (db w)).
Proof.
  intros Htx Hfind F0 F1. split.
  - intros Hnone. unfold updateExerciseInWorkout, tryCatch. unfold bind at 1.
    rewrite (Workout_findOne_run _ _ _ F0). unfold view.
    rewrite Htx, Hfind, (assignAt_none _ _ _ Hnone). cbn.
    eexists. split; reflexivity.
  - intros pre e post Hes He Hpre.
    unfold updateExerciseInWorkout, tryCatch. unfold bind at 1.
    rewrite (Workout_findOne_run _ _ _ F0). unfold view.
    rewrite Htx, Hfind, Hes, (assignAt_first _ _ _ _ _ Hpre He).
    set (workout' := withExercises _ workout).
    apply findWorkout_id in Hfind as Hwk. destruct Hwk as [Hid Hu].
    unfold bind.
    rewrite Workout_save_run;
      [ | cbn [log]; rewrite length_app; exact F1 | reflexivity
        | cbn [db]; exact (found_exists _ _ _ _ workout' Hfind Hid) ].
    eexists workout', _. split; [reflexivity|]. cbn [db workouts].
    split; [subst workout'; unfold assignEntry; cbn; rewrite He; reflexivity|].
    split; [reflexivity|]. split.
    + unfold findWorkout. cbn [workouts].
      exact (find_replaced _ _ _ _ workout' Hfind Hid Hu).
    + split; [|repeat split].
      apply sameElsewhere_replace; [apply sameElsewhere_refl | exact Hid].
Qed.

Lemma Workout_findOneAndDelete_run id userId w :
  fault (List.length (log w)) = false ->
  txn w = None ->
  Workout_findOneAndDelete fault id userId w
  = match findWorkout id userId (db w) with
    | None =>
        (Ret None,
         mkWorld (db w) None (ticks w) (log w ++ [OpFindOneAndUpdate id userId]))
    | Some wk =>
        (Ret (Some wk),
         mkWorld (mkStore (removeWorkout id userId (workouts (db w)))
                    (exerciseIds (db w)) (records (db w)) (progress (db w)))
           None (ticks w) (log w ++ [OpFindOneAndUpdate id userId]))
    end.
Proof.
  intros F Htx. unfold Workout_findOneAndDelete. unfold bind at 1.
  rewrite request_run, F. unfold bind, readStore, view. cbn [txn db].
  rewrite Htx. destruct (findWorkout id userId (db w)); reflexivity.
Qed.

(** X9. [deleteWorkout] on a workout of the caller, with unique ids and
    the store answering: the workout is gone for its owner, every other
    lookup answers as before, the collection has one document less and
    its ids stay unique. The records and progress entries, also those
    that refer to the deleted workout, are all kept. Deleting once more
    throws "Workout not found" (404). *)
Theorem deleteWorkout_removes id userId w workout :
  txn w = None ->
  uniqueIds (db w) ->
  findWorkout id userId (db w) = Some workout ->
  fault (List.length (log w)) = false ->
  fault (List.length (log w) + 1)%nat = false ->
  exists w',
    deleteWorkout fault id userId w = (Ret tt, w')
    /\ findWorkout id userId (db w') = None
    /\ (forall id' userId', id' <> id ->
          findWorkout id' userId' (db w') = findWorkout id' userId' (db w))
    /\ S (List.length (workouts (db w'))) = List.length (workouts (db w))
    /\ uniqueIds (db w')
    /\ exerciseIds (db w') = exerciseIds (db w)
    /\ records (db w') = records (db w)
    /\ progress (db w') = progress (db w)
    /\ exists w'',
         deleteWorkout fault id userId w' = (Raise NotFound, w'')
         /\ db w'' = db w'.
Proof.
  intros Htx Huniq Hfind F0 F1.
  assert (Hgone : find (fun x => String.eqb (_id x) id
                                 && String.eqb (user x) userId)
                       (removeWorkout id userId (workouts (db w))) = None)
    by exact (find_removed _ _ _ _ Huniq Hfind).
  unfold deleteWorkout at 1, tryCatch. unfold bind at 1.
  rewrite (Workout_findOneAndDelete_run _ _ _ F0 Htx), Hfind.
  eexists. split; [reflexivity|]. cbn [db workouts exerciseIds records progress].
  split; [exact Hgone|]. split.
  { intros id' userId' Hne. unfold findWorkout. cbn [workouts].
    apply find_other_removed. exact Hne. }
  split; [exact (removeWorkout_length _ _ _ _ Hfind)|].
  split; [exact (removeWorkout_unique _ _ _ Huniq)|].
  split; [reflexivity|]. split; [reflexivity|]. split; [reflexivity|].
  unfold deleteWorkout, tryCatch. unfold bind at 1.
  rewrite Workout_findOneAndDelete_run;
    [ | cbn [log]; rewrite length_app; exact F1 | reflexivity ].
  unfold findWorkout at 1. cbn [db workouts]. rewrite Hgone. cbn.
  eexists. split; reflexivity.
Qed.

Lemma getWorkoutById_run id userId w :
  fault (List.length (log w)) = false ->
  getWorkoutById fault id userId w
  = (match findWorkout id userId (view w) with
     | Some workout => Ret (workout, exerciseIds (view w))
     | None => Raise NotFound
     end,
     mkWorld (db w) (txn w) (ticks w) (log w ++ [OpFindWorkout id userId])).
Proof.
  intros F. unfold getWorkoutById, tryCatch, Workout_findOne_populated.
  unfold bind. rewrite request_run, F. unfold readStore, view. cbn [txn db].
  destruct (findWorkout id userId _); reflexivity.
Qed.

Lemma Workout_insert_run wk w :
  fault (List.length (log w)) = false ->
  txn w = None ->
  Workout_insert fault wk w
  = if existsb (fun x => String.eqb (_id x) (_id wk)) (workouts (db w)) then
      (Raise (MongoError "E11000 duplicate key error"),
       mkWorld (db w) None (ticks w) (log w ++ [OpSaveWorkout wk]))
    else
      (Ret tt,
       mkWorld (mkStore (workouts (db w) ++ [wk]) (exerciseIds (db w))
                  (records (db w)) (progress (db w)))
         None (ticks w) (log w ++ [OpSaveWorkout wk])).
Proof.
  intros F Htx. unfold Workout_insert. unfold bind at 1.
  rewrite request_run, F. unfold bind, readStore, view. cbn [txn db].
  rewrite Htx. destruct (existsb _ _); reflexivity.
Qed.

(** X10. [createWorkout] outside a transaction. Without [user], [routine]
    or [startTime] the call throws "Error creating workout" (400) before
    any request. With them and the store answering, an [_id] already in
    the collection gives the same error and no change; a new one gives a
    workout with the given fields, in progress unless a status is given,
    without exercises unless some are given, which [getWorkoutById] then
    returns to its owner; the other lookups answer as before and unique
    ids stay unique. *)
Theorem createWorkout_effect workoutData w :
  txn w = None ->
  let fresh := newObjectId (List.length (log w)) in
  ((u_user workoutData = None \/ u_routine workoutData = None
    \/ u_startTime workoutData = None) ->
   createWorkout fault newObjectId workoutData w
   = (Raise (AppError "Error creating workout" 400), w))
  /\ (forall userId routineId start,
        u_user workoutData = Some userId ->
        u_routine workoutData = Some routineId ->
        u_startTime workoutData = Some start ->
        fault (List.length (log w)) = false ->
        if existsb (fun x => String.eqb (_id x) fresh) (workouts (db w)) then
          exists w',
            createWorkout fault newObjectId workoutData w
            = (Raise (AppError "Error creating workout" 400), w')
            /\ db w' = db w
        else
          exists workout w',
            createWorkout fault newObjectId workoutData w = (Ret workout, w')
            /\ _id workout = fresh /\ user workout = userId
            /\ routine workout = routineId /\ startTime workout = start
            /\ status workout
               = patched (u_status workoutData) Status.in_progress
            /\ exercises workout = patched (u_exercises workoutData) []
            /\ workouts (db w') = workouts (db w) ++ [workout]
            /\ (forall id' userId', id' <> fresh ->
                  findWorkout id' userId' (db w')
                  = findWorkout id' userId' (db w))
            /\ (uniqueIds (db w) -> uniqueIds (db w'))
            /\ (fault (List.length (log w) + 1)%nat = false ->
                exists w'',
                  getWorkoutById fault fresh userId w'
                  = (Ret (workout, exerciseIds (db w)), w'')
                  /\ db w'' = db w')).
Proof.
  intros Htx fresh. split.
  - intros Hmissing. unfold createWorkout, tryCatch, bind, newWorkout.
    destruct Hmissing as [H | [H | H]]; rewrite H;
      destruct (u_user workoutData); try destruct (u_routine workoutData);
      reflexivity.
  - intros userId routineId start Hu Hr Hs F0.
    set (workout := mkWorkout fresh userId routineId start
                      (u_endTime workoutData) (u_duration workoutData)
                      (patched (u_status workoutData) Status.in_progress)
                      (patched (u_exercises workoutData) [])
                      (u_metrics workoutData)).
    assert (Hrun : createWorkout fault newObjectId workoutData w
                   = tryCatch (bind (Workout_insert fault workout)
                                 (fun _ => ret workout))
                       (fun _ => throw (AppError "Error creating workout" 400))
                       w).
    { unfold createWorkout, tryCatch. unfold bind at 1. fold fresh.
      unfold newWorkout. rewrite Hu, Hr, Hs. reflexivity. }
    rewrite Hrun. unfold tryCatch, bind.
    rewrite (Workout_insert_run _ _ F0 Htx).
    change (_id workout) with fresh.
    destruct (existsb _ (workouts (db w))) eqn:Hex.
    { cbn. eexists. split; reflexivity. }
    eexists workout, _. split; [reflexivity|].
    cbn [db workouts exerciseIds].
    split; [reflexivity|]. split; [reflexivity|]. split; [reflexivity|].
    split; [reflexivity|]. split; [reflexivity|]. split; [reflexivity|].
    split; [reflexivity|]. split.
    { intros id' userId' Hne. unfold findWorkout. cbn [workouts].
      apply find_other_appended. cbn. congruence. }
    split.
    { intros Huniq. unfold uniqueIds. cbn [workouts].
      apply appended_unique; assumption. }
    intros F1. rewrite getWorkoutById_run;
      [ | cbn [log]; rewrite length_app; exact F1 ].
    unfold view, findWorkout. cbn [txn db workouts exerciseIds].
    rewrite (find_appended fresh userId _ workout Hex eq_refl eq_refl).
    eexists. split; reflexivity.
Qed.

End Operations.

(** ** Unique ids *)

Section UniqueIds.

Variable fault : nat -> bool.
Variable newObjectId : nat -> ObjectId.

Create HintDb ids discriminated.

#[local] Hint Resolve stays_ret stays_throw stays_request : ids.
#[local] Hint Extern 2 (stays _ _) =>
  apply stays_reading; intros ?; split; reflexivity : ids.

Ltac keeping := walk @stays_bind ltac:(auto with ids).

Lemma stable_replace wk :
  stable (outTx uniqueIds)
    (fun s => mkStore (replaceWorkout wk (workouts s)) (exerciseIds s)
                (records s) (progress s)).
Proof.
  apply stable_outTx. intros s H. unfold uniqueIds in *. cbn.
  rewrite replaceWorkout_ids. exact H.
Qed.

Lemma stable_remove id userId :
  stable (outTx uniqueIds)
    (fun s => mkStore (removeWorkout id userId (workouts s)) (exerciseIds s)
                (records s) (progress s)).
Proof.
  apply stable_outTx. intros s H. unfold uniqueIds in *. cbn.
  apply removeWorkout_unique. exact H.
Qed.

#[local] Hint Extern 1 (stays _ (writeStore _)) =>
  apply stays_writeStore; first [apply stable_replace | apply stable_remove]
  : ids.

Lemma stays_save wk : stays (outTx uniqueIds) (Workout_save fault wk).
Proof. unfold Workout_save. keeping. Qed.

Lemma stays_insert wk : stays (outTx uniqueIds) (Workout_insert fault wk).
Proof.
  intros w [Htx Hu]. unfold Workout_insert, bind.
  rewrite request_run. destruct (fault _); cbn; [split; assumption|].
  unfold readStore, view. cbn [txn db]. rewrite Htx.
  destruct (existsb _ (workouts (db w))) eqn:Hex; cbn.
  - split; [reflexivity | exact Hu].
  - split; [reflexivity|]. unfold uniqueIds. cbn.
    apply appended_unique; assumption.
Qed.

#[local] Hint Resolve stays_save stays_insert : ids.

Ltac guarded := apply stays_tryCatch; [ | intros ? ]; keeping.

Lemma stays_updateWorkout id userId updateData :
  stays (outTx uniqueIds) (updateWorkout fault id userId updateData).
Proof. unfold updateWorkout, Workout_findOneAndUpdate. guarded. Qed.

Lemma stays_addExerciseToWorkout id userId exerciseData :
  stays (outTx uniqueIds)
    (addExerciseToWorkout fault newObjectId id userId exerciseData).
Proof. unfold addExerciseToWorkout, Workout_findOne. guarded. Qed.

Lemma stays_updateExerciseInWorkout id userId exerciseId updateData :
  stays (outTx uniqueIds)
    (updateExerciseInWorkout fault id userId exerciseId updateData).
Proof. unfold updateExerciseInWorkout, Workout_findOne. guarded. Qed.

Lemma stays_deleteWorkout id userId :
  stays (outTx uniqueIds) (deleteWorkout fault id userId).
Proof. unfold deleteWorkout, Workout_findOneAndDelete. guarded. Qed.

Lemma stays_createWorkout workoutData :
  stays (outTx uniqueIds) (createWorkout fault newObjectId workoutData).
Proof. unfold createWorkout. guarded. Qed.

Lemma stays_getWorkoutById K id userId :
  stays K (getWorkoutById fault id userId).
Proof.
  unfold getWorkoutById, Workout_findOne_populated.
  apply stays_tryCatch; [ | intros ? ];
    walk @stays_bind ltac:(auto with ids).
Qed.

(** X11. Outside a transaction, no operation on the workouts ever gives
    two of them the same [_id] or leaves a transaction open, whatever its
    outcome; [getWorkoutById] does not change the database at all. *)
Theorem operations_keep_ids_unique w :
  txn w = None ->
  uniqueIds (db w) ->
  (forall id userId updateData r w',
      updateWorkout fault id userId updateData w = (r, w') ->
      txn w' = None /\ uniqueIds (db w'))
  /\ (forall id userId exerciseData r w',
        addExerciseToWorkout fault newObjectId id userId exerciseData w
        = (r, w') ->
        txn w' = None /\ uniqueIds (db w'))
  /\ (forall id userId exerciseId updateData r w',
        updateExerciseInWorkout fault id userId exerciseId updateData w
        = (r, w') ->
        txn w' = None /\ uniqueIds (db w'))
  /\ (forall id userId r w',
        deleteWorkout fault id userId w = (r, w') ->
        txn w' = None /\ uniqueIds (db w'))
  /\ (forall workoutData r w',
        createWorkout fault newObjectId workoutData w = (r, w') ->
        txn w' = None /\ uniqueIds (db w'))
  /\ (forall id userId r w',
        getWorkoutById fault id userId w = (r, w') ->
        txn w' = None /\ db w' = db w).
Proof.
  intros Htx Hu.
  assert (Hw : outTx uniqueIds (db w) (txn w)) by (split; assumption).
  repeat match goal with |- _ /\ _ => split end; intros.
  - eapply (stays_run (outTx uniqueIds));
      [apply stays_updateWorkout | exact Hw | eassumption].
  - eapply (stays_run (outTx uniqueIds));
      [apply stays_addExerciseToWorkout | exact Hw | eassumption].
  - eapply (stays_run (outTx uniqueIds));
      [apply stays_updateExerciseInWorkout | exact Hw | eassumption].
  - eapply (stays_run (outTx uniqueIds));
      [apply stays_deleteWorkout | exact Hw | eassumption].
  - eapply (stays_run (outTx uniqueIds));
      [apply stays_createWorkout | exact Hw | eassumption].
  - eapply (stays_run (outTx (fun d => d = db w)));
      [apply stays_getWorkoutById | split; [exact Htx | reflexivity]
      | eassumption].
Qed.

End UniqueIds.

(** ** Updating a workout *)

Lemma find_replaced_any ws wk' :
  existsb (fun x => String.eqb (_id x) (_id wk')) ws = true ->
  find (fun w => String.eqb (_id w) (_id wk') && String.eqb (user w) (user wk'))
       (replaceWorkout wk' ws)
  = Some wk'.
Proof.
  induction ws as [|x rest IH]; cbn; [discriminate|].
  destruct (String.eqb (_id x) (_id wk')) eqn:E; cbn.
  - intros _. rewrite !String.eqb_refl. reflexivity.
  - intros H. rewrite E. cbn. exact (IH H).
Qed.

Lemma find_absent id userId ws :
  ~ In id (map _id ws) ->
  find (fun w => String.eqb (_id w) id && String.eqb (user w) userId) ws = None.
Proof.
  intros Hnotin. destruct (find _ ws) as [y|] eqn:Hy; [|reflexivity].
  apply find_in_ids in Hy. contradiction.
Qed.

Lemma find_handed_over userId ws wk' :
  NoDup (map _id ws) ->
  user wk' <> userId ->
  find (fun w => String.eqb (_id w) (_id wk') && String.eqb (user w) userId)
       (replaceWorkout wk' ws)
  = None.
Proof.
  intros Hnd Hne. apply String.eqb_neq in Hne.
  induction ws as [|x rest IH]; cbn; [reflexivity|].
  inversion Hnd as [|? ? Hnotin Hnd']; subst.
  destruct (String.eqb (_id x) (_id wk')) eqn:E; cbn.
  - rewrite String.eqb_refl, Hne. cbn. apply String.eqb_eq in E.
    apply find_absent. rewrite <- E. exact Hnotin.
  - rewrite E. cbn. exact (IH Hnd').
Qed.

Section Updating.

Variable fault : nat -> bool.

Lemma Workout_findOneAndUpdate_run id userId patch w :
  fault (List.length (log w)) = false ->
  txn w = None ->
  Workout_findOneAndUpdate fault id userId patch w
  = match findWorkout id userId (db w) with
    | None =>
        (Ret None,
         mkWorld (db w) None (ticks w) (log w ++ [OpFindOneAndUpdate id userId]))
    | Some wk =>
        (Ret (Some (applyPatch patch wk)),
         mkWorld (mkStore (replaceWorkout (applyPatch patch wk) (workouts (db w)))
                    (exerciseIds (db w)) (records (db w)) (progress (db w)))
           None (ticks w) (log w ++ [OpFindOneAndUpdate id userId]))
    end.
Proof.
  intros F Htx. unfold Workout_findOneAndUpdate. unfold bind at 1.
  rewrite request_run, F. unfold bind, readStore, view. cbn [txn db].
  rewrite Htx. destruct (findWorkout id userId (db w)); reflexivity.
Qed.

(** X12. [updateWorkout] on a workout of the caller, with the store
    answering and whatever the status of the workout: the document after
    the update is returned, it keeps its [_id] and takes every field the
    data gives, the status and the owner among them; whoever owns it
    after the update finds it under its id; the other workouts, the
    records and the progress entries are untouched. When the data names
    another owner and ids are unique, the caller no longer finds the
    workout. *)
Theorem updateWorkout_effect id userId updateData w workout :
  txn w = None ->
  findWorkout id userId (db w) = Some workout ->
  fault (List.length (log w)) = false ->
  exists w',
    updateWorkout fault id userId updateData w
    = (Ret (applyPatch updateData workout), w')
    /\ _id (applyPatch updateData workout) = id
    /\ status (applyPatch updateData workout)
       = patched (u_status updateData) (status workout)
    /\ user (applyPatch updateData workout)
       = patched (u_user updateData) userId
    /\ findWorkout id (patched (u_user updateData) userId) (db w')
       = Some (applyPatch updateData workout)
    /\ sameElsewhere id (workouts (db w)) (workouts (db w'))
    /\ exerciseIds (db w') = exerciseIds (db w)
    /\ records (db w') = records (db w)
    /\ progress (db w') = progress (db w)
    /\ (uniqueIds (db w) ->
        patched (u_user updateData) userId <> userId ->
        findWorkout id userId (db w') = None).
Proof.
  intros Htx Hfind F0.
  apply findWorkout_id in Hfind as Hwk. destruct Hwk as [Hid Hu].
  set (workout' := applyPatch updateData workout).
  assert (Hid' : _id workout' = id) by exact Hid.
  assert (Hu' : user workout' = patched (u_user updateData) userId)
    by (cbn; rewrite Hu; reflexivity).
  unfold updateWorkout, tryCatch. unfold bind at 1.
  rewrite (Workout_findOneAndUpdate_run _ _ _ _ F0 Htx), Hfind.
  fold workout'. eexists. split; [reflexivity|].
  cbn [db workouts exerciseIds records progress].
  split; [exact Hid'|]. split; [reflexivity|]. split; [exact Hu'|]. split.
  { pose proof (find_replaced_any _ workout'
                  (found_exists _ _ _ _ workout' Hfind Hid')) as H.
    rewrite Hid', Hu' in H. exact H. }
  split.
  { apply sameElsewhere_replace; [apply sameElsewhere_refl | exact Hid']. }
  split; [reflexivity|]. split; [reflexivity|]. split; [reflexivity|].
  intros Huniq Hother. rewrite <- Hu' in Hother.
  pose proof (find_handed_over userId _ workout' Huniq Hother) as H.
  rewrite Hid' in H. exact H.
Qed.

End Updating.

(** ** Adding an exercise that does not exist *)

Section Dangling.

Variable fault : nat -> bool.
Variable newObjectId : nat -> ObjectId.

Lemma addExerciseToWorkout_run id userId exerciseData w workout ex :
  txn w = None ->
  findWorkout id userId (db w) = Some workout ->
  status workout = Status.in_progress ->
  u_exercise exerciseData = Some ex ->
  fault (List.length (log w)) = false ->
  fault (List.length (log w) + 1)%nat = false ->
  let entry := mkWorkoutSet (newObjectId (List.length (log w) + 1)%nat) ex
                 (patched (u_sets exerciseData) []) in
  let workout' := withExercises (exercises workout ++ [entry]) workout in
  addExerciseToWorkout fault newObjectId id userId exerciseData w
  = (Ret workout',
     mkWorld (mkStore (replaceWorkout workout' (workouts (db w)))
                (exerciseIds (db w)) (records (db w)) (progress (db w)))
       None (ticks w)
       ((log w ++ [OpFindWorkout id userId]) ++ [OpSaveWorkout workout'])).
Proof.
  intros Htx Hfind Hst Hex F0 F1 entry workout'.
  unfold addExerciseToWorkout, tryCatch. unfold bind at 1.
  rewrite (Workout_findOne_run _ _ _ _ F0). unfold view.
  rewrite Htx, Hfind, Hst, Hex. cbn [Status.eqb negb].
  unfold bind at 1. cbn [log db txn ticks].
  rewrite length_app. cbn [List.length]. fold entry. fold workout'.
  apply findWorkout_id in Hfind as Hwk. destruct Hwk as [Hid Hu].
  unfold bind.
  rewrite Workout_save_run;
    [ reflexivity | cbn [log]; rewrite length_app; exact F1 | reflexivity
    | cbn [db]; exact (found_exists _ _ _ _ workout' Hfind Hid) ].
Qed.

(** X13. [addExerciseToWorkout] accepts a reference to an exercise that is
    not in the exercise collection, and the workout can then no longer be
    completed: after such a call every [completeWorkout] on it throws,
    "Error completing workout" (400) once its session has started, and
    changes nothing. *)
Theorem added_dangling_exercise_blocks_completion
    id userId exerciseData w workout ex :
  txn w = None ->
  findWorkout id userId (db w) = Some workout ->
  status workout = Status.in_progress ->
  u_exercise exerciseData = Some ex ->
  populate (exerciseIds (db w)) ex = None ->
  fault (List.length (log w)) = false ->
  fault (List.length (log w) + 1)%nat = false ->
  exists workout' w',
    addExerciseToWorkout fault newObjectId id userId exerciseData w
    = (Ret workout', w')
    /\ forall clock fault' uniqueIndex,
         exists e w'',
           completeWorkout clock fault' uniqueIndex id userId w'
           = (Raise e, w'')
           /\ db w'' = db w'
           /\ (fault' (List.length (log w')) = false -> e = InternalError).
Proof.
  intros Htx Hfind Hst Hex Hpop F0 F1.
  pose proof (addExerciseToWorkout_run id userId exerciseData w workout ex
                Htx Hfind Hst Hex F0 F1) as Hrun.
  cbv zeta in Hrun.
  set (entry := mkWorkoutSet _ ex _) in Hrun.
  set (workout' := withExercises _ workout) in Hrun.
  apply findWorkout_id in Hfind as Hwk. destruct Hwk as [Hid Hu].
  eexists workout', _. split; [exact Hrun|].
  intros clock fault' uniqueIndex.
  set (w1 := mkWorld (mkStore (replaceWorkout workout' (workouts (db w)))
                        (exerciseIds (db w)) (records (db w)) (progress (db w)))
               None (ticks w)
               ((log w ++ [OpFindWorkout id userId])
                  ++ [OpSaveWorkout workout'])).
  assert (Hfind' : findWorkout id userId (db w1) = Some workout').
  { unfold findWorkout. cbn [w1 db workouts].
    exact (find_replaced _ _ _ _ workout' Hfind Hid Hu). }
  assert (Hst' : status workout' <> Status.completed)
    by (cbn; rewrite Hst; discriminate).
  assert (Hin : In entry (exercises workout'))
    by (cbn; apply in_or_app; right; left; reflexivity).
  destruct (completeWorkout clock fault' uniqueIndex id userId w1)
    as [[done|e] w''] eqn:H.
  { elim (completeWorkout_rejected _ _ _ _ _ _ _ _ H). }
  exists e, w''. split; [reflexivity|].
  split; [exact (completeWorkout_Raise_db _ _ _ _ _ _ _ _ H)|].
  intros F. exact (open_workout_error _ _ _ _ _ _ _ _ _ Hfind' Hst' F H).
Qed.

End Dangling.

(** ** The status of an AppError *)

Lemma appErrorStatus_three_digits :
  forallb (fun n => let c := Z.of_nat n + 100 in
                    String.eqb (appErrorStatus c)
                      (if (400 <=? c) && (c <=? 499) then "fail" else "error"))
          (seq 0 900) = true.
Proof. vm_compute. reflexivity. Qed.

(** X14. The [status] of an [AppError] with a three-digit code is "fail"
    for the codes 400 to 499 and "error" for all the others; every error
    that the operations on one workout throw by themselves therefore
    carries the status "fail". *)
Theorem appErrorStatus_fail_iff_4xx statusCode :
  100 <= statusCode <= 999 ->
  appErrorStatus statusCode
  = (if (400 <=? statusCode) && (statusCode <=? 499) then "fail" else "error")
  /\ (forall e message, clientError e -> e = AppError message statusCode ->
        appErrorStatus statusCode = "fail").
Proof.
  intros Hc.
  assert (H : appErrorStatus statusCode
              = (if (400 <=? statusCode) && (statusCode <=? 499)
                 then "fail" else "error")).
  { pose proof appErrorStatus_three_digits as Hall.
    rewrite forallb_forall in Hall.
    specialize (Hall (Z.to_nat (statusCode - 100))).
    cbv zeta in Hall.
    replace (Z.of_nat (Z.to_nat (statusCode - 100)) + 100) with statusCode
      in Hall by lia.
    apply String.eqb_eq. apply Hall. apply in_seq. lia. }
  split; [exact H|].
  intros e message (m & c & He & Hcode) Heq. rewrite H.
  rewrite He in Heq. inversion Heq; subst.
  destruct Hcode as [-> | ->]; reflexivity.
Qed.

(** ** Listing the workouts of a user *)

Lemma insertByStart_perm ties w ws :
  Permutation (insertByStart ties w ws) (w :: ws).
Proof.
  induction ws as [|x rest IH]; cbn; [reflexivity|].
  destruct (_ || _); [reflexivity|].
  rewrite IH. apply perm_swap.
Qed.

Lemma sortByStartDesc_perm ties ws : Permutation (sortByStartDesc ties ws) ws.
Proof.
  induction ws as [|x rest IH]; cbn; [reflexivity|].
  rewrite insertByStart_perm. constructor. exact IH.
Qed.

Lemma insertByStart_sorted ties w ws :
  StronglySorted latestFirst ws ->
  StronglySorted latestFirst (insertByStart ties w ws).
Proof.
  induction ws as [|x rest IH]; intros Hs; cbn.
  - repeat constructor.
  - inversion Hs as [|? ? Hrest Hx]; subst.
    destruct ((startTime x <? startTime w)
              || ((startTime x =? startTime w) && ties w x)) eqn:E.
    + assert (Hle : startTime x <= startTime w).
      { apply orb_prop in E as [E | E]; [apply Z.ltb_lt in E; lia|].
        apply andb_prop in E as [E _]. apply Z.eqb_eq in E. lia. }
      constructor; [exact Hs|]. constructor; [exact Hle|].
      rewrite Forall_forall in *. intros y Hy. specialize (Hx y Hy).
      unfold latestFirst in *. lia.
    + apply orb_false_elim in E as [E _]. apply Z.ltb_ge in E.
      constructor; [exact (IH Hrest)|].
      rewrite Forall_forall in *. intros y Hy.
      apply (Permutation_in _ (insertByStart_perm ties w rest)) in Hy.
      destruct Hy as [<- | Hy]; [exact E | exact (Hx y Hy)].
Qed.

Lemma sortByStartDesc_sorted ties ws :
  StronglySorted latestFirst (sortByStartDesc ties ws).
Proof.
  induction ws as [|x rest IH]; cbn; [constructor|].
  apply insertByStart_sorted. exact IH.
Qed.

(** With distinct start times the order does not depend on the server. *)
Lemma insertByStart_distinct ties ties' w ws :
  ~ In (startTime w) (map startTime ws) ->
  insertByStart ties w ws = insertByStart ties' w ws.
Proof.
  induction ws as [|x rest IH]; intros Hnotin; cbn; [reflexivity|].
  assert (Hx : (startTime x =? startTime w) = false).
  { apply Z.eqb_neq. intros Heq. apply Hnotin. left. exact Heq. }
  rewrite Hx. cbn [andb]. rewrite IH; [reflexivity|].
  intros Hin. apply Hnotin. right. exact Hin.
Qed.

Lemma sortByStartDesc_distinct ties ties' ws :
  NoDup (map startTime ws) ->
  sortByStartDesc ties ws = sortByStartDesc ties' ws.
Proof.
  unfold sortByStartDesc.
  induction ws as [|x rest IH]; intros Hnd; cbn [fold_right]; [reflexivity|].
  inversion Hnd as [|? ? Hnotin Hnd']; subst.
  rewrite (IH Hnd'). apply insertByStart_distinct.
  intros Hin. apply Hnotin.
  apply (Permutation_in _
           (Permutation_map startTime (sortByStartDesc_perm ties' rest))).
  exact Hin.
Qed.

Lemma sorted_skipn n (l : list Workout) :
  StronglySorted latestFirst l -> StronglySorted latestFirst (skipn n l).
Proof.
  revert l. induction n as [|n IH]; intros l Hs; [exact Hs|].
  destruct l as [|x rest]; [constructor|]. cbn.
  inversion Hs; subst. apply IH. assumption.
Qed.

Lemma In_firstn {A} n (l : list A) x : In x (firstn n l) -> In x l.
Proof.
  revert l. induction n as [|n IH]; intros l H; [destruct H|].
  destruct l as [|y rest]; [exact H|].
  destruct H as [H|H]; [left; exact H | right; exact (IH _ H)].
Qed.

Lemma sorted_firstn n (l : list Workout) :
  StronglySorted latestFirst l -> StronglySorted latestFirst (firstn n l).
Proof.
  revert l. induction n as [|n IH]; intros l Hs; [constructor|].
  destruct l as [|x rest]; [constructor|]. cbn.
  inversion Hs as [|? ? Hrest Hx]; subst. constructor; [exact (IH _ Hrest)|].
  rewrite Forall_forall in *. intros y Hy. apply Hx.
  exact (In_firstn _ _ _ Hy).
Qed.

Lemma In_skipn {A} n (l : list A) x : In x (skipn n l) -> In x l.
Proof.
  revert l. induction n as [|n IH]; intros l H; [exact H|].
  destruct l as [|y rest]; [exact H|]. right. exact (IH _ H).
Qed.

Lemma limitTo_In {A} n (l : list A) x : In x (limitTo n l) -> In x l.
Proof. destruct n; [auto|]. apply In_firstn. Qed.

Lemma limitTo_length {A} n (l : list A) :
  List.length (limitTo n l)
  = match n with O => List.length l | _ => Nat.min n (List.length l) end.
Proof. destruct n; [reflexivity|]. apply length_firstn. Qed.

Lemma firstn_plus {A} a b (l : list A) :
  firstn (a + b) l = firstn a l ++ firstn b (skipn a l).
Proof.
  revert l. induction a as [|a IH]; intros l; [reflexivity|].
  destruct l as [|x rest]; cbn; [rewrite firstn_nil; reflexivity|].
  rewrite IH. reflexivity.
Qed.

Lemma pages_concat {A} n (l : list A) k :
  List.concat (map (fun i => firstn n (skipn (i * n) l)) (seq 0 k))
  = firstn (k * n) l.
Proof.
  induction k as [|k IH]; [reflexivity|].
  rewrite seq_S, map_app, concat_app, IH. cbn [map List.concat Nat.add].
  rewrite app_nil_r. rewrite <- firstn_plus. f_equal. lia.
Qed.

(** X15. [getUserWorkouts], when both queries answer and whatever order
    the server gives to workouts of equal start time: every workout of
    the page is a workout of the caller that passes the filters given (a
    status or routine given as the empty string is no filter); the page is
    ordered by start time, latest first; [total] counts all the matching
    workouts, whatever the page; the page has [limit] documents (10 when
    none is given) or as many as are left after the offset, and all that
    are left when the limit is 0. With the limit 0 and no offset the page
    holds each matching workout once. *)
Theorem getUserWorkouts_page ties userId options s :
  let limit := match o_limit options with Some n => n | None => 10%nat end in
  let offset := match o_offset options with Some n => n | None => O end in
  let matching := filter (matchesQuery userId options) (workouts s) in
  exists page,
    getUserWorkouts ties false false userId options s
    = Ret (page, List.length matching)
    /\ (forall limit' offset',
          List.length
            (filter (matchesQuery userId (pageOptions options limit' offset'))
               (workouts s))
          = List.length matching)
    /\ (forall wk, In wk page ->
          In wk (workouts s) /\ user wk = userId
          /\ (forall st, o_status options = Some st -> st <> "" ->
                statusName (status wk) = st)
          /\ (forall r, o_routineId options = Some r -> r <> "" ->
                routine wk = r)
          /\ (forall d, o_fromDate options = Some d -> d <= startTime wk)
          /\ (forall d, o_toDate options = Some d -> startTime wk <= d))
    /\ StronglySorted latestFirst page
    /\ List.length page
       = match limit with
         | O => (List.length matching - offset)%nat
         | _ => Nat.min limit (List.length matching - offset)
         end
    /\ (limit = O -> offset = O -> Permutation page matching).
Proof.
  intros limit offset matching.
  exists (limitTo limit (skipn offset (sortByStartDesc ties matching))).
  split; [reflexivity|]. split; [reflexivity|]. split.
  { intros wk Hin. apply limitTo_In, In_skipn in Hin.
    apply (Permutation_in _ (sortByStartDesc_perm ties matching)) in Hin.
    apply filter_In in Hin as [Hin Hq]. split; [exact Hin|].
    unfold matchesQuery in Hq.
    apply andb_prop in Hq as [Hq Hto]. apply andb_prop in Hq as [Hq Hfrom].
    apply andb_prop in Hq as [Hq Hr]. apply andb_prop in Hq as [Hu Hst].
    split; [apply String.eqb_eq; exact Hu|].
    split; [|split; [|split]].
    - intros st Heq Hne. rewrite Heq in Hst.
      destruct st; [elim Hne; reflexivity|]. apply String.eqb_eq. exact Hst.
    - intros r Heq Hne. rewrite Heq in Hr.
      destruct r; [elim Hne; reflexivity|]. apply String.eqb_eq. exact Hr.
    - intros d Heq. rewrite Heq in Hfrom. apply Z.leb_le. exact Hfrom.
    - intros d Heq. rewrite Heq in Hto. apply Z.leb_le. exact Hto. }
  split.
  { assert (Hs : StronglySorted latestFirst
                   (skipn offset (sortByStartDesc ties matching)))
      by (apply sorted_skipn, sortByStartDesc_sorted).
    destruct limit; [exact Hs|]. apply sorted_firstn. exact Hs. }
  split.
  { rewrite limitTo_length, length_skipn.
    rewrite (Permutation_length (sortByStartDesc_perm ties matching)).
    reflexivity. }
  intros -> ->. cbn. apply sortByStartDesc_perm.
Qed.

(** X16. Paging through the workouts of a user with a positive limit,
    the store unchanged, when no two of the matching workouts start at
    the same time: whatever the server does with ties in each query, the
    pages at the offsets 0, limit, 2 × limit, ... put end to end are the
    first documents of the whole list, in its order, so that no workout
    comes twice or is left out, and once the offsets have passed the total,
    the pages are the whole list. *)
Theorem paging_covers_every_workout
    (ties : Workout -> Workout -> bool)
    (tiesOf : nat -> Workout -> Workout -> bool) userId options s limit k :
  (0 < limit)%nat ->
  NoDup (map startTime (filter (matchesQuery userId options) (workouts s))) ->
  let whole := pageOf ties userId options s 0 0 in
  let pages :=
    List.concat
      (map (fun i => pageOf (tiesOf i) userId options s limit (i * limit))
         (seq 0 k)) in
  pages = firstn (k * limit) whole
  /\ (countUserWorkouts userId options s <= k * limit -> pages = whole)%nat
  /\ Permutation whole (filter (matchesQuery userId options) (workouts s)).
Proof.
  intros Hpos Hdistinct whole pages.
  assert (Hwhole : whole
                   = sortByStartDesc ties
                       (filter (matchesQuery userId options) (workouts s)))
    by reflexivity.
  assert (Hpages : pages = firstn (k * limit) whole).
  { unfold pages. rewrite Hwhole, <- pages_concat. f_equal. apply map_ext.
    intros i. destruct limit; [lia|].
    unfold pageOf, getUserWorkouts, findUserWorkouts.
    cbn [orb pageOptions o_limit o_offset limitTo].
    change (matchesQuery userId (pageOptions options (S limit) (i * S limit)))
      with (matchesQuery userId options).
    rewrite (sortByStartDesc_distinct (tiesOf i) ties _ Hdistinct).
    reflexivity. }
  split; [exact Hpages|]. split.
  - intros Htotal. rewrite Hpages. apply firstn_all2.
    rewrite Hwhole, (Permutation_length (sortByStartDesc_perm _ _)).
    exact Htotal.
  - rewrite Hwhole. apply sortByStartDesc_perm.
Qed.

(** Without that, two pages of one can show the same workout twice and
    leave the other out. *)
Example ties_break_paging :
  let s := mkStore [workoutAt "a" "u1" 10; workoutAt "b" "u1" 10] [] [] [] in
  let aFirst := fun w _ : Workout => String.eqb (_id w) "a" in
  let bFirst := fun w _ : Workout => String.eqb (_id w) "b" in
  map _id (pageOf bFirst "u1" noOptions s 1 0) = ["b"]
  /\ map _id (pageOf aFirst "u1" noOptions s 1 1) = ["b"].
Proof. split; reflexivity. Qed.

(** ** The further properties at concrete inputs *)

Lemma completeWorkout_progress_types_witness :
  exists r w',
    completeWorkout sampleClock noFault true "w1" "u1" sampleWorld = (r, w')
    /\ exists l,
         appended sampleWorld w' l
         /\ (forall ps p,
               In (OpCreateProgress ps) l -> In p ps ->
               (p_type p = "exercise" \/ p_type p = "performance")
               /\ isProgressMetricType (p_type p) = false)
         /\ (forall workout', r = Ret workout' ->
               exists ps, In (OpCreateProgress ps) l /\ List.length ps = 2%nat).
Proof.
  eexists _, _. split; [vm_compute; reflexivity|].
  apply (completeWorkout_progress_types sampleClock noFault true "w1" "u1"
           sampleWorld).
  vm_compute; reflexivity.
Defined.

(** The store fails when the record of the single is inserted: nothing
    is left of the run. *)
Lemma completeWorkout_footprint_witness :
  exists r w',
    completeWorkout sampleClock (faultAt 4) true "w1" "u1" sampleWorld = (r, w')
    /\ touched "u1" "w1" (db sampleWorld) (db w')
    /\ (forall id' userId', id' <> "w1" ->
          findWorkout id' userId' (db w')
          = findWorkout id' userId' (db sampleWorld))
    /\ (uniqueIds (db sampleWorld) -> uniqueIds (db w')).
Proof.
  eexists _, _. split; [vm_compute; reflexivity|].
  eapply (completeWorkout_footprint sampleClock (faultAt 4) true "w1" "u1"
            sampleWorld).
  vm_compute; reflexivity.
Defined.

(** The workout w1 belongs to u1, not to u2. *)
Lemma completeWorkout_not_owned_witness :
  findWorkout "w1" "u2" (db sampleWorld) = None
  /\ exists e w',
       completeWorkout sampleClock noFault true "w1" "u2" sampleWorld
       = (Raise e, w')
       /\ db w' = db sampleWorld
       /\ (exists l, appended sampleWorld w' l
                     /\ forallb (fun op => negb (isWrite op)) l = true)
       /\ (noFault (List.length (log sampleWorld)) = false ->
           noFault (List.length (log sampleWorld) + 2)%nat = false ->
           e = NotFound).
Proof.
  split; [reflexivity|].
  apply (completeWorkout_not_owned sampleClock noFault true "w1" "u2"
           sampleWorld).
  reflexivity.
Defined.

Lemma completeWorkout_dangling_exercise_witness :
  let w := initial (storeOf danglingSession []) in
  findWorkout "w1" "u1" (db w) = Some danglingSession
  /\ populate (exerciseIds (db w)) "squat" = None
  /\ exists e w',
       completeWorkout sampleClock noFault true "w1" "u1" w = (Raise e, w')
       /\ db w' = db w
       /\ (e = MongoError "request failed" \/ e = InternalError)
       /\ (noFault (List.length (log w)) = false -> e = InternalError).
Proof.
  intros w. split; [reflexivity|]. split; [reflexivity|].
  apply (completeWorkout_dangling_exercise sampleClock noFault true "w1" "u1" w
           danglingSession (mkWorkoutSet "e1" "squat" [lift 100 1])).
  - reflexivity.
  - discriminate.
  - left. reflexivity.
  - reflexivity.
Defined.

(** The store fails at the lookup of [deleteWorkout]: the error that
    leaves the service is an AppError with the code 400. *)
Lemma service_errors_witness :
  exists e w',
    deleteWorkout (faultAt 0) "w1" "u1" sampleWorld = (Raise e, w')
    /\ clientError e.
Proof.
  eexists _, _. split; [vm_compute; reflexivity|].
  eapply (proj1 (proj2 (proj2 (proj2 (proj2 service_errors))))
            (faultAt 0) "w1" "u1" sampleWorld).
  vm_compute; reflexivity.
Defined.

Lemma foreign_workout_not_found_witness :
  (forall updateData, exists w',
      updateWorkout noFault "w1" "u2" updateData sampleWorld
      = (Raise NotFound, w')
      /\ db w' = db sampleWorld)
  /\ (forall exerciseData, exists w',
        addExerciseToWorkout noFault sampleIds "w1" "u2" exerciseData sampleWorld
        = (Raise NotFound, w')
        /\ db w' = db sampleWorld)
  /\ (forall exerciseId updateData, exists w',
        updateExerciseInWorkout noFault "w1" "u2" exerciseId updateData
          sampleWorld
        = (Raise NotFound, w')
        /\ db w' = db sampleWorld)
  /\ (exists w',
        getWorkoutById noFault "w1" "u2" sampleWorld = (Raise NotFound, w')
        /\ db w' = db sampleWorld)
  /\ (exists w',
        deleteWorkout noFault "w1" "u2" sampleWorld = (Raise NotFound, w')
        /\ db w' = db sampleWorld).
Proof.
  apply (foreign_workout_not_found noFault sampleIds "w1" "u2" sampleWorld);
    reflexivity.
Defined.

(** The bench press is added a second time, with one set of 60 × 5. *)
Lemma addExerciseToWorkout_appends_witness :
  let workout := session Status.in_progress [lift 100 1] in
  exists workout' w' entry,
    addExerciseToWorkout noFault sampleIds "w1" "u1" benchData sampleWorld
    = (Ret workout', w')
    /\ exercises workout' = exercises workout ++ [entry]
    /\ exercise entry = "bench"
    /\ sets entry = [lift 60 5]
    /\ status workout' = Status.in_progress
    /\ findWorkout "w1" "u1" (db w') = Some workout'
    /\ sameElsewhere "w1" (workouts (db sampleWorld)) (workouts (db w'))
    /\ exerciseIds (db w') = exerciseIds (db sampleWorld)
    /\ records (db w') = records (db sampleWorld)
    /\ progress (db w') = progress (db sampleWorld).
Proof.
  intros workout.
  exact (addExerciseToWorkout_appends noFault sampleIds "w1" "u1" benchData
           sampleWorld workout eq_refl eq_refl eq_refl eq_refl eq_refl).
Defined.

(** The sets of the entry e1 are replaced by one set of 60 × 5. *)
Lemma updateExerciseInWorkout_effect_witness :
  let workout := session Status.in_progress [lift 100 1] in
  exists workout' w',
    updateExerciseInWorkout noFault "w1" "u1" "e1" benchData sampleWorld
    = (Ret workout', w')
    /\ exercises workout' = [] ++ mkWorkoutSet "e1" "bench" [lift 60 5] :: []
    /\ status workout' = status workout
    /\ findWorkout "w1" "u1" (db w') = Some workout'
    /\ sameElsewhere "w1" (workouts (db sampleWorld)) (workouts (db w'))
    /\ exerciseIds (db w') = exerciseIds (db sampleWorld)
    /\ records (db w') = records (db sampleWorld)
    /\ progress (db w') = progress (db sampleWorld).
Proof.
  intros workout.
  apply (proj2 (updateExerciseInWorkout_effect noFault "w1" "u1" "e1" benchData
                  sampleWorld workout eq_refl eq_refl eq_refl eq_refl)
           [] (mkWorkoutSet "e1" "bench" [lift 100 1]) []).
  - reflexivity.
  - reflexivity.
  - intros x [].
Defined.

Lemma deleteWorkout_removes_witness :
  uniqueIds (db sampleWorld)
  /\ exists w',
       deleteWorkout noFault "w1" "u1" sampleWorld = (Ret tt, w')
       /\ findWorkout "w1" "u1" (db w') = None
       /\ (forall id' userId', id' <> "w1" ->
             findWorkout id' userId' (db w')
             = findWorkout id' userId' (db sampleWorld))
       /\ S (List.length (workouts (db w')))
          = List.length (workouts (db sampleWorld))
       /\ uniqueIds (db w')
       /\ exerciseIds (db w') = exerciseIds (db sampleWorld)
       /\ records (db w') = records (db sampleWorld)
       /\ progress (db w') = progress (db sampleWorld)
       /\ exists w'',
            deleteWorkout noFault "w1" "u1" w' = (Raise NotFound, w'')
            /\ db w'' = db w'.
Proof.
  assert (Hu : uniqueIds (db sampleWorld)).
  { unfold uniqueIds. cbn. constructor; [intros [] | constructor]. }
  split; [exact Hu|].
  apply (deleteWorkout_removes noFault "w1" "u1" sampleWorld
           (session Status.in_progress [lift 100 1]));
    solve [reflexivity | exact Hu].
Defined.

(** A workout of u2 is created beside the session of u1 and read back. *)
Lemma createWorkout_effect_witness :
  exists workout w',
    createWorkout noFault sampleIds newWorkoutData sampleWorld = (Ret workout, w')
    /\ _id workout = "e9" /\ user workout = "u2"
    /\ routine workout = "r1" /\ startTime workout = 5
    /\ status workout = Status.in_progress
    /\ exercises workout = []
    /\ workouts (db w') = workouts (db sampleWorld) ++ [workout]
    /\ (forall id' userId', id' <> "e9" ->
          findWorkout id' userId' (db w')
          = findWorkout id' userId' (db sampleWorld))
    /\ (uniqueIds (db sampleWorld) -> uniqueIds (db w'))
    /\ (noFault (List.length (log sampleWorld) + 1)%nat = false ->
        exists w'',
          getWorkoutById noFault "e9" "u2" w'
          = (Ret (workout, exerciseIds (db sampleWorld)), w'')
          /\ db w'' = db w').
Proof.
  exact (proj2 (createWorkout_effect noFault sampleIds newWorkoutData sampleWorld
                  eq_refl)
           "u2" "r1" 5 eq_refl eq_refl eq_refl eq_refl).
Defined.

(** The store fails at the lookup of [deleteWorkout]. *)
Lemma operations_keep_ids_unique_witness :
  txn sampleWorld = None
  /\ exists r w',
       deleteWorkout (faultAt 0) "w1" "u1" sampleWorld = (r, w')
       /\ txn w' = None /\ uniqueIds (db w').
Proof.
  split; [reflexivity|].
  eexists _, _. split; [vm_compute; reflexivity|].
  eapply (proj1 (proj2 (proj2 (proj2
            (operations_keep_ids_unique (faultAt 0) sampleIds sampleWorld
               eq_refl
               ltac:(unfold uniqueIds; cbn;
                     constructor; [intros [] | constructor])))))
            "w1" "u1").
  vm_compute; reflexivity.
Defined.

(** The session of u1 is aborted and handed to u2. *)
Lemma updateWorkout_effect_witness :
  let workout := session Status.in_progress [lift 100 1] in
  exists w',
    updateWorkout noFault "w1" "u1" handOver sampleWorld
    = (Ret (applyPatch handOver workout), w')
    /\ _id (applyPatch handOver workout) = "w1"
    /\ status (applyPatch handOver workout) = Status.aborted
    /\ user (applyPatch handOver workout) = "u2"
    /\ findWorkout "w1" "u2" (db w') = Some (applyPatch handOver workout)
    /\ sameElsewhere "w1" (workouts (db sampleWorld)) (workouts (db w'))
    /\ exerciseIds (db w') = exerciseIds (db sampleWorld)
    /\ records (db w') = records (db sampleWorld)
    /\ progress (db w') = progress (db sampleWorld)
    /\ (uniqueIds (db sampleWorld) -> "u2" <> "u1" ->
        findWorkout "w1" "u1" (db w') = None).
Proof.
  intros workout.
  exact (updateWorkout_effect noFault "w1" "u1" handOver sampleWorld workout
           eq_refl eq_refl eq_refl).
Defined.

(** The squat, which the exercise collection does not have, is added to
    the session. *)
Lemma added_dangling_exercise_blocks_completion_witness :
  populate (exerciseIds (db sampleWorld)) "squat" = None
  /\ exists workout' w',
       addExerciseToWorkout noFault sampleIds "w1" "u1" squatData sampleWorld
       = (Ret workout', w')
       /\ forall clock fault' uniqueIndex,
            exists e w'',
              completeWorkout clock fault' uniqueIndex "w1" "u1" w'
              = (Raise e, w'')
              /\ db w'' = db w'
              /\ (fault' (List.length (log w')) = false -> e = InternalError).
Proof.
  split; [reflexivity|].
  apply (added_dangling_exercise_blocks_completion noFault sampleIds "w1" "u1"
           squatData sampleWorld (session Status.in_progress [lift 100 1])
           "squat");
    reflexivity.
Defined.

Lemma appErrorStatus_fail_iff_4xx_witness :
  appErrorStatus 404 = "fail" /\ appErrorStatus 500 = "error".
Proof.
  split.
  - exact (proj1 (appErrorStatus_fail_iff_4xx 404 ltac:(lia))).
  - exact (proj1 (appErrorStatus_fail_iff_4xx 500 ltac:(lia))).
Defined.

(** The second page of two of the workouts of u1: the earliest one. *)
Lemma getUserWorkouts_page_witness :
  exists page,
    getUserWorkouts laterFirst false false "u1" (pageOptions noOptions 2 2)
      fourWorkouts
    = Ret (page, 3%nat)
    /\ (forall wk, In wk page -> user wk = "u1")
    /\ StronglySorted latestFirst page
    /\ List.length page = 1%nat.
Proof.
  destruct (getUserWorkouts_page laterFirst "u1" (pageOptions noOptions 2 2)
              fourWorkouts)
    as (page & Hrun & _ & Hin & Hsorted & Hlen & _).
  exists page. split; [exact Hrun|].
  split; [intros wk Hwk; exact (proj1 (proj2 (Hin wk Hwk)))|].
  split; [exact Hsorted | exact Hlen].
Defined.

(** The three workouts of u1, which start at 10, 30 and 20, in two pages
    of two. *)
Lemma paging_covers_every_workout_witness :
  (0 < 2)%nat
  /\ NoDup (map startTime
              (filter (matchesQuery "u1" noOptions) (workouts fourWorkouts)))
  /\ pageOf (fickle 0) "u1" noOptions fourWorkouts 2 0
       ++ pageOf (fickle 1) "u1" noOptions fourWorkouts 2 2
     = pageOf laterFirst "u1" noOptions fourWorkouts 0 0.
Proof.
  assert (Hd : NoDup (map startTime
                        (filter (matchesQuery "u1" noOptions)
                           (workouts fourWorkouts)))).
  { cbn. repeat constructor; cbn; intuition discriminate. }
  split; [lia|]. split; [exact Hd|].
  pose proof (proj1 (proj2 (paging_covers_every_workout laterFirst fickle
                              "u1" noOptions fourWorkouts 2 2
                              ltac:(lia) Hd))
                ltac:(cbn; lia)) as H.
  cbn [seq map List.concat Nat.mul Nat.add] in H. rewrite app_nil_r in H.
  exact H.
Defined.
